(** * friday_jarvis: the motion-triggered security monitor

    A shallow embedding of [security_monitor.py]: the per-frame
    detection pipeline, the recording state machine of
    [SecurityMonitor._monitor_loop], the [start]/[stop] control surface
    and the two module-level entry points.

    Conventions of the model
    - a grayscale image is a list of rows of pixel values ([Z], 0..255);
    - clock readings ([time.time()]) are rationals;
    - the OpenCV primitives the loop calls are modelled in [Module Cv2]
      after their documented behaviour on 8-bit single-channel images;
    - everything the loop does to the outside world (video writer, image
      files, notifications, log) is recorded as a list of [event]s. *)

From Stdlib Require Import String.
From Stdlib Require Import List ZArith QArith Qround Bool Lia Lqa.
Import ListNotations.
Local Open Scope Z_scope.

(** ** OpenCV primitives *)

Module Cv2.

Definition image := list (list Z).
Definition point := (Z * Z)%type.
Definition contour := list point.

(** [(x, y, w, h)] as returned by [cv2.boundingRect]. *)
Record rect := Rect { rx : Z; ry : Z; rw : Z; rh : Z }.

Definition zrange (n : nat) : list Z := map Z.of_nat (seq 0 n).

(** Pixel access; everything outside the image reads as 0. *)
Definition pix (m : image) (x y : Z) : Z :=
  if (x <? 0) || (y <? 0) then 0
  else match nth_error m (Z.to_nat y) with
       | Some row => match nth_error row (Z.to_nat x) with
                     | Some v => v
                     | None => 0
                     end
       | None => 0
       end.

Fixpoint upd {A} (n : nat) (f : A -> A) (l : list A) : list A :=
  match l, n with
  | [], _ => []
  | a :: l', O => f a :: l'
  | a :: l', S n' => a :: upd n' f l'
  end.

Definition setpix (m : image) (x y v : Z) : image :=
  upd (Z.to_nat y) (upd (Z.to_nat x) (fun _ => v)) m.

Fixpoint map2 {A B C} (f : A -> B -> C) (l1 : list A) (l2 : list B) : list C :=
  match l1, l2 with
  | a :: l1', b :: l2' => f a b :: map2 f l1' l2'
  | _, _ => []
  end.

(** [cv2.absdiff(a, b)] on two images of the same size. *)
Definition absdiff (a b : image) : image :=
  map2 (map2 (fun p q => Z.abs (p - q))) a b.

(** [cv2.threshold(src, thresh, maxval, cv2.THRESH_BINARY)[1]]:
    [maxval] where [src > thresh], 0 elsewhere. *)
Definition threshold (src : image) (thresh maxval : Z) : image :=
  map (map (fun p => if thresh <? p then maxval else 0)) src.

(** The eight neighbours, numbered as OpenCV's chain codes:
    0 = E, 1 = NE, 2 = N, 3 = NW, 4 = W, 5 = SW, 6 = S, 7 = SE
    (the y axis points down). *)
Definition delta (s : Z) : point :=
  match s mod 8 with
  | 0 => (1, 0) | 1 => (1, -1) | 2 => (0, -1) | 3 => (-1, -1)
  | 4 => (-1, 0) | 5 => (-1, 1) | 6 => (0, 1) | _ => (1, 1)
  end.

Definition neighbour (x y s : Z) : point :=
  let '(dx, dy) := delta s in (x + dx, y + dy).

Definition pix_at (m : image) (p : point) : Z := pix m (fst p) (snd p).

(** Largest value in the 3x3 window centred at [(x, y)]; pixels outside
    the image do not contribute. *)
Definition max9 (m : image) (x y : Z) : Z :=
  fold_left Z.max (map (fun s => pix_at m (neighbour x y s)) (zrange 8))
            (pix m x y).

(** One pass of [cv2.dilate] with the default 3x3 rectangular kernel. *)
Definition dilate1 (m : image) : image :=
  map (fun y => map (fun x => max9 m x y)
                    (zrange (length (nth (Z.to_nat y) m []))))
      (zrange (length m)).

(** [cv2.dilate(src, None, iterations=n)]. *)
Fixpoint dilate (src : image) (iterations : nat) : image :=
  match iterations with
  | O => src
  | S n => dilate (dilate1 src) n
  end.

(** *** Border following ([cv2.findContours], [RETR_EXTERNAL],
    [CHAIN_APPROX_SIMPLE])

    Non-zero pixels count as 1.  The image is scanned in raster order; an
    unmarked pixel whose left neighbour is 0 starts an outer border unless
    the last marked pixel met on the row says the scan is inside an
    already traced component.  A traced border marks its pixels with 2, or
    with -126 where the border leaves the component to the right. *)

Definition binarize (m : image) : image :=
  map (map (fun p => if p =? 0 then 0 else 1)) m.

Definition mark_left : Z := 2.
Definition mark_right : Z := -126.

(** First non-zero neighbour met going clockwise from the west one. *)
Definition first_dir (m : image) (x y : Z) : option Z :=
  find (fun s => negb (pix_at m (neighbour x y s) =? 0)) [3; 2; 1; 0; 7; 6; 5].

(** Counter-clockwise search: the first [k] in [s+1 .. s+n] whose
    neighbour is non-zero, or [s+n]. *)
Fixpoint search (n : nat) (m : image) (x y s : Z) : Z :=
  match n with
  | O => s
  | S n' => if negb (pix_at m (neighbour x y (s + 1)) =? 0) then s + 1
            else search n' m x y (s + 1)
  end.

Fixpoint follow (fuel : nat) (m : image) (p0 p1 p3 : point) (s prev_s : Z)
         (acc : list point) : image * contour :=
  match fuel with
  | O => (m, rev acc)
  | S fuel' =>
      let s_end := s in
      let k := search (Z.to_nat (15 - s_end)) m (fst p3) (snd p3) s_end in
      let p4 := neighbour (fst p3) (snd p3) k in
      let s := k mod 8 in
      let m := if (negb (s =? 0)) && (s - 1 <? s_end)
               then setpix m (fst p3) (snd p3) mark_right
               else if pix_at m p3 =? 1
                    then setpix m (fst p3) (snd p3) mark_left
                    else m in
      let acc := if s =? prev_s then acc else p3 :: acc in
      let prev_s := s in
      if (fst p4 =? fst p0) && (snd p4 =? snd p0)
         && (fst p3 =? fst p1) && (snd p3 =? snd p1)
      then (m, rev acc)
      else follow fuel' m p0 p1 p4 ((s + 4) mod 8) prev_s acc
  end.

Definition pixels (m : image) : nat :=
  fold_left (fun n row => (n + length row)%nat) m O.

(** Trace the outer border that starts at [(x, y)]. *)
Definition fetchContour (m : image) (x y : Z) : image * contour :=
  match first_dir m x y with
  | None => (setpix m x y mark_right, [(x, y)])
  | Some s =>
      follow (8 * pixels m + 8) m (x, y) (neighbour x y s) (x, y)
             s ((s + 4) mod 8) []
  end.

Record scanner := Scanner {
  sc_img : image;
  sc_lnbd : Z;
  sc_found : list contour
}.

Definition marked (p : Z) : bool := negb ((p =? 0) || (p =? 1)).

Definition scan_pixel (y : Z) (sc : scanner) (x : Z) : scanner :=
  let m := sc_img sc in
  let prev := pix m (x - 1) y in
  let p := pix m x y in
  if p =? prev then sc
  else if (prev =? 0) && (p =? 1) then
    if 0 <? pix m (sc_lnbd sc) y then sc
    else let '(m', c) := fetchContour m x y in
         Scanner m' x (c :: sc_found sc)
  else if negb (p =? 0) || (prev <? 1) then
    if marked p then Scanner m x (sc_found sc) else sc
  else
    if marked prev then Scanner m (x - 1) (sc_found sc) else sc.

Definition scan_row (w : nat) (sc : scanner) (y : Z) : scanner :=
  fold_left (scan_pixel y) (zrange w)
            (Scanner (sc_img sc) (-1) (sc_found sc)).

Definition width (m : image) : nat := length (hd [] m).

Definition findContours (m : image) : list contour :=
  sc_found (fold_left (scan_row (width m)) (zrange (length m))
                      (Scanner (binarize m) (-1) [])).

(** [cv2.contourArea]: half the absolute value of the shoelace sum. *)
Fixpoint shoelace (prev : point) (c : contour) : Z :=
  match c with
  | [] => 0
  | p :: c' => fst prev * snd p - snd prev * fst p + shoelace p c'
  end.

Definition contourArea (c : contour) : Q :=
  match c with
  | [] => 0%Q
  | p :: _ => Z.abs (shoelace (last c p) c) # 2
  end.

(** [cv2.boundingRect] of a contour with integer vertices. *)
Definition boundingRect (c : contour) : rect :=
  match c with
  | [] => Rect 0 0 0 0
  | p :: c' =>
      let xmin := fold_left Z.min (map fst c') (fst p) in
      let xmax := fold_left Z.max (map fst c') (fst p) in
      let ymin := fold_left Z.min (map snd c') (snd p) in
      let ymax := fold_left Z.max (map snd c') (snd p) in
      Rect xmin ymin (xmax - xmin + 1) (ymax - ymin + 1)
  end.

End Cv2.

Import Cv2.

(** ** Clock arithmetic *)

Definition Qltb (a b : Q) : bool := negb (Qle_bool b a).

(** Python's [x % m] on floats, for a positive modulus. *)
Definition fmod (x m : Q) : Q := (x - m * inject_Z (Qfloor (x / m)))%Q.

(** ** Frames, events and the monitor object *)

Definition bgr_image := list (list (Z * Z * Z)).

(** A camera frame together with what has been drawn on it:
    [cv2.rectangle] adds a box, [cv2.putText] sets the overlay text. *)
Record frame := Frame {
  raw : bgr_image;
  boxes : list (point * point);
  overlay : option string
}.

Definition rectangle (f : frame) (pt1 pt2 : point) : frame :=
  Frame (raw f) (boxes f ++ [(pt1, pt2)]) (overlay f).

Definition putText (f : frame) (text : string) : frame :=
  Frame (raw f) (boxes f) (Some text).

Inductive log_line :=
| Camera_not_opened
| Read_failed
| Motion_recording_started (video_path : string)
| Recording_finished
| Loop_error.

(** What the loop does to the outside world.  A video writer is named
    by the path it was opened with; [Send_notification] is the call of
    [self._send_notification(screenshot_path)], whichever channel that
    call then uses. *)
Inductive event :=
| VideoWriter_open (video_path : string)
| Imwrite (screenshot_path : string) (f : frame)
| Send_notification (screenshot_path : string)
| VideoWriter_write (video_path : string) (f : frame)
| VideoWriter_release (video_path : string)
| Camera_release
| Log_info (l : log_line)
| Log_error (l : log_line).

(** Target of the thread [start()] creates. *)
Inductive target := Monitor_loop.

Record SecurityMonitor := Build_SecurityMonitor {
  camera_id : Z;
  sensitivity : Z;
  min_area : Q;
  record_seconds : Q;
  notify_method : string;
  save_dir : string;
  is_running : bool;
  camera : option Z;
  monitor_thread : option target
}.

Definition set_is_running (b : bool) (m : SecurityMonitor) : SecurityMonitor :=
  Build_SecurityMonitor (camera_id m) (sensitivity m) (min_area m)
    (record_seconds m) (notify_method m) (save_dir m)
    b (camera m) (monitor_thread m).

Definition set_camera (c : option Z) (m : SecurityMonitor) : SecurityMonitor :=
  Build_SecurityMonitor (camera_id m) (sensitivity m) (min_area m)
    (record_seconds m) (notify_method m) (save_dir m)
    (is_running m) c (monitor_thread m).

Definition set_monitor_thread (t : option target) (m : SecurityMonitor)
  : SecurityMonitor :=
  Build_SecurityMonitor (camera_id m) (sensitivity m) (min_area m)
    (record_seconds m) (notify_method m) (save_dir m)
    (is_running m) (camera m) t.

(** [SecurityMonitor.__init__]: the object as the constructor leaves it.
    (Creating [save_dir] and reading the mail and chat credentials from
    the environment are left out.) *)
Definition init (camera_id sensitivity : Z) (min_area record_seconds : Q)
           (notify_method save_dir : string) : SecurityMonitor :=
  Build_SecurityMonitor camera_id sensitivity min_area record_seconds
    notify_method save_dir false None None.

Definition default_min_area : Q := 500.
Definition default_save_dir : string := "security_recordings".

(** *** Return messages *)

Definition msg_already_running : string := "Мониторинг безопасности уже запущен".
Definition msg_started : string := "Мониторинг безопасности запущен".
Definition msg_not_running : string := "Мониторинг безопасности не запущен".
Definition msg_stopped : string := "Мониторинг безопасности остановлен".
Definition msg_was_not_started : string := "Мониторинг безопасности не был запущен".

(** [SecurityMonitor.start]: the loop is handed to a new thread and the
    call returns at once. *)
Definition start (m : SecurityMonitor) : string * SecurityMonitor :=
  if is_running m then (msg_already_running, m)
  else (msg_started, set_monitor_thread (Some Monitor_loop) (set_is_running true m)).

(** [SecurityMonitor.stop]. *)
Definition stop (m : SecurityMonitor) : string * SecurityMonitor * list event :=
  if negb (is_running m) then (msg_not_running, m, [])
  else match camera m with
       | Some _ => (msg_stopped, set_camera None (set_is_running false m),
                    [Camera_release])
       | None => (msg_stopped, set_is_running false m, [])
       end.

(** ** The monitoring loop *)

(** What one iteration of the loop observes from outside: the result of
    [camera.read()] and the clock at each place the loop reads it. *)
Record tick := Tick {
  ret : bool;
  cam_frame : bgr_image;
  now_name : string;      (* datetime.now().strftime("%Y%m%d_%H%M%S") *)
  now_start : Q;          (* time.time() stored in record_start_time *)
  now_check : Q;          (* time.time() of the duration test *)
  now_refresh : Q;        (* time.time() of the reference refresh *)
  now_text : string       (* datetime.now().strftime(...) of the overlay *)
}.

(** The local variables of [_monitor_loop]. *)
Record locals := Locals {
  gray_first_frame : image;
  is_recording : bool;
  video_writer : option string;
  record_start_time : option Q
}.

Inductive flow :=
| Next (l : locals) (shown : frame)   (* the iteration ran to its end *)
| Leave (l : locals)                  (* the loop is left *)
| Raise (l : locals).                 (* an exception left the loop *)

Definition ends_with_slash (s : string) : bool :=
  match String.length s with
  | O => false
  | S n => String.eqb (String.substring n 1 s) "/"
  end.

(** [os.path.join] of a directory and a relative file name (POSIX). *)
Definition path_join (dir name : string) : string :=
  if String.eqb dir "" then name
  else if ends_with_slash dir then (dir ++ name)%string
  else (dir ++ "/" ++ name)%string.

(** Binary mask of the pixels that changed, lines 130-134. *)
Definition motion_mask (sensitivity : Z) (reference gray : image) : image :=
  dilate (threshold (absdiff reference gray) sensitivity 255) 2.

(** Body of [for contour in contours], lines 140-146. *)
Definition check_contour (min_area : Q) (acc : bool * frame) (c : contour)
  : bool * frame :=
  if Qltb (contourArea c) min_area then acc
  else let r := boundingRect c in
       (true, rectangle (snd acc) (rx r, ry r) (rx r + rw r, ry r + rh r)).

Definition check_contours (min_area : Q) (contours : list contour) (f : frame)
  : bool * frame :=
  fold_left (check_contour min_area) contours (false, f).

(** A contour passes the area test of the contour loop. *)
Definition survives (min_area : Q) (c : contour) : bool :=
  negb (Qltb (contourArea c) min_area).

(** The two corners [cv2.rectangle] is given for a bounding rectangle. *)
Definition box_of (r : rect) : point * point :=
  ((rx r, ry r), (rx r + rw r, ry r + rh r)).

(** The contours that survive the area test, as bounding rectangles. *)
Definition motion_regions (sensitivity : Z) (min_area : Q)
           (reference gray : image) : list rect :=
  map boundingRect
      (filter (survives min_area)
              (findContours (motion_mask sensitivity reference gray))).

Definition video_path_of (m : SecurityMonitor) (i : tick) : string :=
  path_join (save_dir m) ("motion_" ++ now_name i ++ ".avi").

Definition screenshot_path_of (m : SecurityMonitor) (i : tick) : string :=
  path_join (save_dir m) ("motion_" ++ now_name i ++ ".jpg").

(** Lines 149-163: start a recording. *)
Definition begin_recording (m : SecurityMonitor) (i : tick)
           (motion_detected : bool) (f : frame) (l : locals)
  : locals * list event :=
  if motion_detected && negb (is_recording l) then
    let video_path := video_path_of m i in
    let screenshot_path := screenshot_path_of m i in
    (Locals (gray_first_frame l) true (Some video_path) (Some (now_start i)),
     [VideoWriter_open video_path;
      Imwrite screenshot_path f;
      Send_notification screenshot_path;
      Log_info (Motion_recording_started video_path)])
  else (l, []).

(** Lines 166-174: write the frame, close the recording when its time
    has run out.  [None] stands for the exception Python raises when
    [video_writer] or [record_start_time] is still [None]. *)
Definition record_frame (m : SecurityMonitor) (i : tick) (f : frame)
           (l : locals) : list event * option locals :=
  if is_recording l then
    match video_writer l with
    | None => ([], None)
    | Some w =>
        match record_start_time l with
        | None => ([VideoWriter_write w f], None)
        | Some t0 =>
            if Qltb (record_seconds m) (now_check i - t0) then
              ([VideoWriter_write w f; VideoWriter_release w;
                Log_info Recording_finished],
               Some (Locals (gray_first_frame l) false None (Some t0)))
            else ([VideoWriter_write w f], Some l)
        end
    end
  else ([], Some l).

(** Lines 176-178: refresh the reference frame. *)
Definition refresh_reference (i : tick) (gray_frame : image) (l : locals)
  : locals :=
  if Qltb (fmod (now_refresh i) 30) 1
  then Locals gray_frame (is_recording l) (video_writer l) (record_start_time l)
  else l.

(** The duration test of line 170 for a recording started at [t0]. *)
Definition expired (m : SecurityMonitor) (i : tick) (t0 : Q) : bool :=
  Qltb (record_seconds m) (now_check i - t0).

(** No pixel of the image exceeds [s]. *)
Definition below (s : Z) (m : image) : Prop :=
  Forall (Forall (fun p => p <= s)) m.

Section Loop.

Variable smooth : bgr_image -> image.
  (* cv2.GaussianBlur(cv2.cvtColor(frame, COLOR_BGR2GRAY), (21, 21), 0) *)

(** One iteration of [while self.is_running], lines 119-192. *)
Definition cycle (m : SecurityMonitor) (l : locals) (i : tick)
  : list event * flow :=
  if negb (ret i) then ([Log_error Read_failed], Leave l)
  else
    let frame := Frame (cam_frame i) [] None in
    let gray_frame := smooth (cam_frame i) in
    let thresh := motion_mask (sensitivity m) (gray_first_frame l) gray_frame in
    let contours := findContours thresh in
    let '(motion_detected, frame) := check_contours (min_area m) contours frame in
    let '(l1, ev1) := begin_recording m i motion_detected frame l in
    match record_frame m i frame l1 with
    | (ev2, None) => (ev1 ++ ev2, Raise l1)
    | (ev2, Some l2) =>
        let l3 := refresh_reference i gray_frame l2 in
        let frame := putText frame (now_text i) in
        (ev1 ++ ev2, Next l3 frame)
    end.

(** The iterations of the loop; the list holds one [tick] for every time
    the loop head found [self.is_running] true.  The loop is left when
    the list is used up or an iteration executes [break]. *)
Fixpoint iterate (m : SecurityMonitor) (l : locals) (ticks : list tick)
  : list event * flow :=
  match ticks with
  | [] => ([], Leave l)
  | i :: rest =>
      match cycle m l i with
      | (ev, Next l' _) =>
          let '(ev', r) := iterate m l' rest in (ev ++ ev', r)
      | r => r
      end
  end.

(** Locals on entry to the loop, lines 104-116. *)
Definition initial (first_frame : bgr_image) : locals :=
  Locals (smooth first_frame) false None None.

(** How a loop whose reads all succeeded comes to its end.  [stop()]
    runs on the caller's thread: it clears [is_running], releases the
    capture object and sets [self.camera] to [None] (lines 85-88). *)
Inductive ending :=
| Stop_before_capture
    (* stop() returned before line 97 assigned self.camera: the first
       loop head already finds is_running false *)
| Stop_before_head
    (* stop() returned before the next loop head *)
| Read_fails (stopped : bool)
    (* the next camera.read() answers ret = False; [stopped] tells
       whether stop() has set self.camera to None by then *)
| Read_raises (stopped : bool).
    (* the next self.camera.read() raises: AttributeError after stop()
       set self.camera to None ([stopped]), or an error inside OpenCV *)

(** Lines 195-196. *)
Definition release_writer (l : locals) : list event :=
  match video_writer l with
  | Some w => [VideoWriter_release w]
  | None => []
  end.

(** The [finally] block, lines 200-204: [cleared] tells whether
    [self.camera] is [None] by then. *)
Definition finally (m : SecurityMonitor) (cleared : bool) (ev : list event)
  : SecurityMonitor * list event :=
  if cleared then (set_is_running false (set_camera None m), ev)
  else (set_is_running false m, ev ++ [Camera_release]).

(** [_monitor_loop]: [opened] is the answer of [camera.isOpened()],
    [first] the frame of the first [camera.read()], [ticks] the
    iterations run, [e] the way the loop ends if no read of [ticks]
    fails. *)
Definition monitor_loop (m : SecurityMonitor) (opened : bool)
           (first : option bgr_image) (ticks : list tick) (e : ending)
  : SecurityMonitor * list event :=
  let m := set_camera (Some (camera_id m)) m in
  if negb opened then finally m false [Log_error Camera_not_opened]
  else match first with
       | None => finally m false [Log_error Loop_error]
       | Some first_frame =>
           match e with
           | Stop_before_capture => finally m false []
           | _ =>
               match iterate m (initial first_frame) ticks with
               | (ev, Raise _) => finally m false (ev ++ [Log_error Loop_error])
               | (ev, Leave l) | (ev, Next l _) =>
                   if forallb ret ticks then
                     match e with
                     | Stop_before_capture => finally m false []
                     | Stop_before_head =>
                         finally m true (ev ++ release_writer l)
                     | Read_fails stopped =>
                         finally m stopped
                           (ev ++ [Log_error Read_failed] ++ release_writer l)
                     | Read_raises stopped =>
                         finally m stopped (ev ++ [Log_error Loop_error])
                     end
                   else finally m false (ev ++ release_writer l)
               end
           end
       end.

(** [start()] followed by the run of the thread it created. *)
Definition start_session (m : SecurityMonitor) (opened : bool)
           (first : option bgr_image) (ticks : list tick) (e : ending)
  : string * (SecurityMonitor * list event) :=
  let '(msg, m1) := start m in
  if is_running m then (msg, (m1, []))
  else (msg, monitor_loop m1 opened first ticks e).

(** The frame of an iteration after the contour loop, with the flag the
    loop computed. *)
Definition inspected (m : SecurityMonitor) (l : locals) (i : tick)
  : bool * frame :=
  check_contours (min_area m)
    (findContours (motion_mask (sensitivity m) (gray_first_frame l)
                               (smooth (cam_frame i))))
    (Frame (cam_frame i) [] None).

(** Along the ticks, no pixel of the difference between the reference
    frame of the moment and the smoothed frame exceeds the sensitivity. *)
Fixpoint quiet (m : SecurityMonitor) (reference : image) (ticks : list tick)
  : Prop :=
  match ticks with
  | [] => True
  | i :: rest =>
      below (sensitivity m) (absdiff reference (smooth (cam_frame i))) /\
      quiet m (if Qltb (fmod (now_refresh i) 30) 1
               then smooth (cam_frame i) else reference) rest
  end.

End Loop.

(** ** Module-level entry points *)

(** The module's global and the monitor objects that exist. *)
Record world := World {
  security_monitor_instance : option nat;
  monitors : list SecurityMonitor
}.

(** State of the module once it is loaded (line 316). *)
Definition loaded : world := World None [].

Definition start_security_monitoring (camera_id sensitivity : Z)
           (record_seconds : Q) (notify_method : string) (w : world)
  : string * world :=
  let monitor := init camera_id sensitivity default_min_area record_seconds
                      notify_method default_save_dir in
  let '(msg, monitor) := start monitor in
  (msg, World (security_monitor_instance w) (monitors w ++ [monitor])).

Definition stop_security_monitoring (w : world) : string * world :=
  match security_monitor_instance w with
  | Some id =>
      match nth_error (monitors w) id with
      | Some m =>
          let '(msg, m', _) := stop m in
          (msg, World None (upd id (fun _ => m') (monitors w)))
      | None => (msg_was_not_started, w)
      end
  | None => (msg_was_not_started, w)
  end.

Inductive call :=
| Call_start (camera_id sensitivity : Z) (record_seconds : Q)
             (notify_method : string)
| Call_stop.

Definition run_call (w : world) (c : call) : string * world :=
  match c with
  | Call_start cid s rs nm => start_security_monitoring cid s rs nm w
  | Call_stop => stop_security_monitoring w
  end.

Definition run_calls (w : world) (cs : list call) : world :=
  fold_left (fun w c => snd (run_call w c)) cs w.

(** ** Reading states and traces *)

(** A recording in progress has its writer and its start time. *)
Definition consistent (l : locals) : Prop :=
  if is_recording l
  then video_writer l <> None /\ record_start_time l <> None
  else video_writer l = None.

Definition locals_of (r : flow) : locals :=
  match r with Next l _ | Leave l | Raise l => l end.

(** *** Observing the event trace *)

Definition opened (ev : list event) : list string :=
  flat_map (fun e => match e with VideoWriter_open p => [p] | _ => [] end) ev.

Definition released (ev : list event) : list string :=
  flat_map (fun e => match e with VideoWriter_release p => [p] | _ => [] end) ev.

Definition screenshots (ev : list event) : list (string * frame) :=
  flat_map (fun e => match e with Imwrite p f => [(p, f)] | _ => [] end) ev.

Definition notifications (ev : list event) : list string :=
  flat_map (fun e => match e with Send_notification p => [p] | _ => [] end) ev.

Definition written (ev : list event) : list (string * frame) :=
  flat_map (fun e => match e with VideoWriter_write p f => [(p, f)] | _ => [] end) ev.

(** Replays a trace against the discipline "one recording at a time":
    [None] as soon as a writer is opened while another is open, or a
    frame is written to, or a release is issued for, a writer that is not
    the open one; otherwise the writer left open at the end. *)
Fixpoint sessions (active : option string) (ev : list event)
  : option (option string) :=
  match ev with
  | [] => Some active
  | VideoWriter_open p :: ev' =>
      match active with
      | None => sessions (Some p) ev'
      | Some _ => None
      end
  | VideoWriter_write p _ :: ev' =>
      match active with
      | Some q => if String.eqb p q then sessions active ev' else None
      | None => None
      end
  | VideoWriter_release p :: ev' =>
      match active with
      | Some q => if String.eqb p q then sessions None ev' else None
      | None => None
      end
  | _ :: ev' => sessions active ev'
  end.

(** Frames that left the loop: saved screenshots and recorded frames. *)
Definition saved (ev : list event) : list (string * frame) :=
  screenshots ev ++ written ev.

(** The part of a trace that precedes the first release of a writer. *)
Fixpoint before_release (ev : list event) : list event :=
  match ev with
  | [] => []
  | VideoWriter_release _ :: _ => []
  | e :: ev' => e :: before_release ev'
  end.

(** An image without foreground. *)
Definition blank (m : image) : Prop := Forall (Forall (fun p => p = 0)) m.



Definition rect_area (r : rect) : Z := rw r * rh r.

(** ** Sample frames *)

Definition gray_bgr (g : image) : bgr_image := map (map (fun v => (v, v, v))) g.

(** Stand-in for the smoothing step: the green channel, unblurred. *)
Definition green (f : bgr_image) : image := map (map (fun p => snd (fst p))) f.

Definition dark (w h : nat) : image := repeat (repeat 0 w) h.

(** One bright pixel in the middle of a 7x7 frame. *)
Definition dot : image :=
  [repeat 0 7; repeat 0 7; repeat 0 7;
   [0; 0; 0; 200; 0; 0; 0];
   repeat 0 7; repeat 0 7; repeat 0 7].

(** Two bright pixels joined by a faint line, in a 17x9 frame. *)
Definition bridge : image :=
  [repeat 0 17; repeat 0 17; repeat 0 17; repeat 0 17;
   [0; 0; 0; 0; 100; 30; 30; 30; 30; 30; 30; 30; 100; 0; 0; 0; 0];
   repeat 0 17; repeat 0 17; repeat 0 17; repeat 0 17].

Definition sample_monitor : SecurityMonitor :=
  set_is_running true (init 0 20 10 10 "email" "security_recordings").

Definition sample_tick (g : image) (t : Q) : tick :=
  Tick true (gray_bgr g) "20240101_120000" t t t "Monday 01 January 2024".

Definition sample_stopped : SecurityMonitor :=
  init 0 20 10 10 "email" "security_recordings".

Definition sample_recording : locals :=
  Locals (dark 7 7) true (Some "security_recordings/motion_x.avi"%string) (Some 0%Q).

Definition sample_idle : locals := Locals (dark 7 7) false None None.

(** A frame that differs from the dark one by less than the sensitivity. *)
Definition dim : image := repeat (repeat 5 7) 7.

(** The border of the 5x5 square the dot grows into. *)
Definition square : contour := [(1, 1); (1, 5); (5, 5); (5, 1)].

(** The frame with the dot after its bounding rectangle was drawn. *)
Definition sample_shot : frame :=
  Frame (gray_bgr dot) [((1, 1), (6, 6))] None.

(** ** Notification dispatch *)

(** The four settings [__init__] reads with [os.getenv]: [None] when the
    variable is not set. *)
Record credentials := Credentials {
  gmail_user : option string;
  gmail_password : option string;
  telegram_bot_token : option string;
  telegram_chat_id : option string
}.

(** Python truth value of a setting: set and not the empty string. *)
Definition truthy (v : option string) : bool :=
  match v with
  | Some s => negb (String.eqb s EmptyString)
  | None => false
  end.

Inductive route :=
| By_email       (* self._send_email_notification(screenshot_path) *)
| By_telegram    (* self._send_telegram_notification(screenshot_path) *)
| Warn_only.     (* logger.warning(...): nothing is sent *)

(** The branch [_send_notification] takes, lines 209-214. *)
Definition send_notification (notify_method : string) (c : credentials)
  : route :=
  if String.eqb notify_method "email"
     && truthy (gmail_user c) && truthy (gmail_password c)
  then By_email
  else if String.eqb notify_method "telegram"
          && truthy (telegram_bot_token c) && truthy (telegram_chat_id c)
  then By_telegram
  else Warn_only.

(** ** Further ways to read images and traces *)

(** Every pixel is an 8-bit value. *)
Definition eight_bit (m : image) : Prop :=
  Forall (Forall (fun p => 0 <= p <= 255)) m.

Definition camera_releases (ev : list event) : nat :=
  List.length (filter (fun e => match e with Camera_release => true
                                        | _ => false end) ev).


(** The dot again, with eleven seconds between the clock reading stored
    as start time and the one of the duration test. *)
Definition sample_slow_tick : tick :=
  Tick true (gray_bgr dot) "20240101_120000" 3 14 14 "Monday 01 January 2024".

(** A tick whose [camera.read()] fails. *)
Definition sample_failed_read : tick :=
  Tick false [] EmptyString 0 0 0 EmptyString.


(** The point lies inside the rectangle. *)
Definition inside (r : rect) (p : point) : Prop :=
  rx r <= fst p < rx r + rw r /\ ry r <= snd p < ry r + rh r.

(** ** Properties *)

Lemma Qltb_lt (a b : Q) : Qltb a b = true <-> (a < b)%Q.
Proof.
  unfold Qltb. rewrite negb_true_iff. split; intro H.
  - apply Qnot_le_lt. intro Hle. apply Qle_bool_iff in Hle. congruence.
  - destruct (Qle_bool b a) eqn:E; [|reflexivity].
    apply Qle_bool_iff in E. exfalso. exact (Qlt_not_le _ _ H E).
Qed.

Lemma Qltb_ge (a b : Q) : Qltb a b = false <-> (b <= a)%Q.
Proof.
  unfold Qltb. rewrite negb_false_iff. apply Qle_bool_iff.
Qed.

(** [fmod x m] is the remainder of [x] modulo [m]. *)
Lemma fmod_spec (x m : Q) :
  (0 < m)%Q ->
  (0 <= fmod x m)%Q /\ (fmod x m < m)%Q /\
  (x == fmod x m + m * inject_Z (Qfloor (x / m)))%Q.
Proof.
  intro Hm. unfold fmod.
  assert (Hnz : ~ (m == 0)%Q) by (intro E; rewrite E in Hm; discriminate).
  pose proof (Qfloor_le (x / m)) as Hlo.
  pose proof (Qlt_floor (x / m)) as Hhi.
  rewrite inject_Z_plus in Hhi.
  set (q := inject_Z (Qfloor (x / m))) in *.
  assert (Hx : (x == m * (x / m))%Q) by (field; exact Hnz).
  repeat split.
  - assert (m * q <= m * (x / m))%Q by (apply Qmult_le_l; assumption).
    rewrite <- Hx in H. lra.
  - assert (m * (x / m) < m * (q + inject_Z 1))%Q
      by (apply Qmult_lt_l; assumption).
    rewrite <- Hx in H.
    change (inject_Z 1) with 1%Q in H. lra.
  - ring.
Qed.

(** A recording in progress has its writer and its start time. *)
Section LoopFacts.

Variable smooth : bgr_image -> image.

Lemma cycle_unfold m l i :
  ret i = true ->
  cycle smooth m l i =
  let '(l1, ev1) :=
    begin_recording m i (fst (inspected smooth m l i)) (snd (inspected smooth m l i)) l in
  match record_frame m i (snd (inspected smooth m l i)) l1 with
  | (ev2, None) => (ev1 ++ ev2, Raise l1)
  | (ev2, Some l2) =>
      (ev1 ++ ev2,
       Next (refresh_reference i (smooth (cam_frame i)) l2)
            (putText (snd (inspected smooth m l i)) (now_text i)))
  end.
Proof.
  intro Hret. unfold cycle, inspected. rewrite Hret. cbn [negb].
  destruct (check_contours _ _ _) as [md fr]. reflexivity.
Qed.

End LoopFacts.

Section StateMachine.

Variable smooth : bgr_image -> image.

Lemma cycle_recording m l i w t0 :
  ret i = true -> is_recording l = true ->
  video_writer l = Some w -> record_start_time l = Some t0 ->
  cycle smooth m l i =
  (VideoWriter_write w (snd (inspected smooth m l i))
     :: (if expired m i t0
         then [VideoWriter_release w; Log_info Recording_finished] else []),
   Next (refresh_reference i (smooth (cam_frame i))
           (if expired m i t0
            then Locals (gray_first_frame l) false None (Some t0) else l))
        (putText (snd (inspected smooth m l i)) (now_text i))).
Proof.
  intros Hret Hrec Hw Ht. rewrite cycle_unfold by assumption.
  unfold begin_recording. rewrite Hrec, andb_false_r.
  unfold record_frame. rewrite Hrec, Hw, Ht. fold (expired m i t0).
  destruct (expired m i t0); reflexivity.
Qed.

Lemma cycle_idle_motion m l i :
  ret i = true -> is_recording l = false ->
  fst (inspected smooth m l i) = true ->
  let fr := snd (inspected smooth m l i) in
  let t0 := now_start i in
  cycle smooth m l i =
  ([VideoWriter_open (video_path_of m i);
    Imwrite (screenshot_path_of m i) fr;
    Send_notification (screenshot_path_of m i);
    Log_info (Motion_recording_started (video_path_of m i));
    VideoWriter_write (video_path_of m i) fr]
     ++ (if expired m i t0
         then [VideoWriter_release (video_path_of m i);
               Log_info Recording_finished] else []),
   Next (refresh_reference i (smooth (cam_frame i))
           (if expired m i t0
            then Locals (gray_first_frame l) false None (Some t0)
            else Locals (gray_first_frame l) true
                        (Some (video_path_of m i)) (Some t0)))
        (putText fr (now_text i))).
Proof.
  intros Hret Hrec Hmd fr t0. rewrite cycle_unfold by assumption.
  unfold begin_recording. rewrite Hrec, Hmd. cbn [negb andb].
  unfold record_frame. cbn [is_recording video_writer record_start_time].
  fold (video_path_of m i) (screenshot_path_of m i).
  subst fr t0. unfold expired.
  destruct (Qltb (record_seconds m) (now_check i - now_start i)); reflexivity.
Qed.

Lemma cycle_idle_still m l i :
  ret i = true -> is_recording l = false ->
  fst (inspected smooth m l i) = false ->
  cycle smooth m l i =
  ([], Next (refresh_reference i (smooth (cam_frame i)) l)
            (putText (snd (inspected smooth m l i)) (now_text i))).
Proof.
  intros Hret Hrec Hmd. rewrite cycle_unfold by assumption.
  unfold begin_recording. rewrite Hrec, Hmd. cbn [negb andb].
  unfold record_frame. rewrite Hrec. reflexivity.
Qed.

Lemma refresh_keeps_session i g l :
  is_recording (refresh_reference i g l) = is_recording l /\
  video_writer (refresh_reference i g l) = video_writer l /\
  record_start_time (refresh_reference i g l) = record_start_time l.
Proof.
  unfold refresh_reference. destruct (Qltb _ _); auto.
Qed.

End StateMachine.

Lemma sessions_app a ev1 ev2 b :
  sessions a ev1 = Some b -> sessions a (ev1 ++ ev2) = sessions b ev2.
Proof.
  revert a. induction ev1 as [|e ev1 IH]; intros a H; cbn in *.
  - congruence.
  - destruct e; try (apply IH; assumption);
      destruct a; try discriminate;
      try (destruct (String.eqb _ _); try discriminate);
      apply IH; assumption.
Qed.

Section Sessions.

Variable smooth : bgr_image -> image.

Lemma cycle_sessions m l i :
  consistent l ->
  exists ev r, cycle smooth m l i = (ev, r) /\
    (forall l', r <> Raise l') /\
    consistent (locals_of r) /\
    sessions (video_writer l) ev = Some (video_writer (locals_of r)).
Proof.
  intro Hc. destruct (ret i) eqn:Hret.
  2:{ unfold cycle. rewrite Hret. cbn. do 2 eexists. split; [reflexivity|].
      repeat split; try discriminate; assumption. }
  unfold consistent in Hc. destruct (is_recording l) eqn:Hrec.
  - destruct Hc as [Hw Ht].
    destruct (video_writer l) as [w|] eqn:Ew; [|congruence].
    destruct (record_start_time l) as [t0|] eqn:Et; [|congruence].
    rewrite (cycle_recording smooth m l i w t0) by assumption.
    do 2 eexists. split; [reflexivity|].
    destruct (refresh_keeps_session i (smooth (cam_frame i))
                (if expired m i t0
                 then Locals (gray_first_frame l) false None (Some t0)
                 else l)) as (R1 & R2 & R3).
    cbn [locals_of]. unfold consistent. rewrite R1, R2, R3.
    destruct (expired m i t0); cbn; rewrite ?String.eqb_refl, ?Hrec, ?Ew, ?Et;
      repeat split; try discriminate; reflexivity.
  - destruct (fst (inspected smooth m l i)) eqn:Hmd.
    + rewrite cycle_idle_motion by assumption.
      do 2 eexists. split; [reflexivity|].
      match goal with |- context [refresh_reference i ?g ?x] =>
        destruct (refresh_keeps_session i g x) as (R1 & R2 & R3) end.
      cbn [locals_of]. unfold consistent. rewrite R1, R2, R3, Hc.
      destruct (expired m i (now_start i)); cbn; rewrite ?String.eqb_refl;
        repeat split; try discriminate; reflexivity.
    + rewrite cycle_idle_still by assumption.
      do 2 eexists. split; [reflexivity|].
      destruct (refresh_keeps_session i (smooth (cam_frame i)) l)
        as (R1 & R2 & R3).
      cbn [locals_of]. unfold consistent. rewrite R1, R2, Hrec, Hc.
      repeat split; try discriminate; reflexivity.
Qed.

Lemma iterate_sessions m ticks : forall l,
  consistent l ->
  exists ev l', iterate smooth m l ticks = (ev, Leave l') /\
    consistent l' /\
    sessions (video_writer l) ev = Some (video_writer l').
Proof.
  induction ticks as [|i rest IH]; intros l Hc.
  - cbn. eauto.
  - destruct (cycle_sessions m l i Hc) as (ev & r & Hcy & Hnr & Hc' & Hs).
    cbn [iterate]. rewrite Hcy. destruct r as [l1 f|l1|l1].
    + cbn [locals_of] in *. destruct (IH l1 Hc') as (ev' & l' & Hit & Hc'' & Hs').
      rewrite Hit. do 2 eexists. split; [reflexivity|]. split; [assumption|].
      rewrite (sessions_app _ _ _ _ Hs). assumption.
    + cbn [locals_of] in *. eauto.
    + exfalso. exact (Hnr l1 eq_refl).
Qed.

End Sessions.

Section RecordingClaims.

Variable smooth : bgr_image -> image.

(** C1 (amended): a recording in progress stays open through every
    iteration whose duration test finds at most [record_seconds] elapsed,
    whatever the frames show, and is closed by the first iteration whose
    test finds strictly more than [record_seconds] elapsed.  The test is
    also made in the iteration that starts the recording, against the
    start time just stored. *)
Theorem C1_recording_closes_after_deadline :
  forall m,
    (forall l w t0 pre i,
        is_recording l = true ->
        video_writer l = Some w ->
        record_start_time l = Some t0 ->
        Forall (fun j => ret j = true /\
                         (now_check j - t0 <= record_seconds m)%Q) pre ->
        ret i = true ->
        (record_seconds m < now_check i - t0)%Q ->
        exists ev l1,
          iterate smooth m l pre = (ev, Leave l1) /\
          is_recording l1 = true /\ video_writer l1 = Some w /\
          record_start_time l1 = Some t0 /\
          released ev = [] /\
          exists ev' l2 shown,
            cycle smooth m l1 i = (ev', Next l2 shown) /\
            released ev' = [w] /\
            is_recording l2 = false /\ video_writer l2 = None) /\
    (forall l i,
        ret i = true ->
        is_recording l = false ->
        fst (inspected smooth m l i) = true ->
        exists ev l' shown,
          cycle smooth m l i = (ev, Next l' shown) /\
          (is_recording l' = false <->
           (record_seconds m < now_check i - now_start i)%Q) /\
          (released ev = [] <->
           (now_check i - now_start i <= record_seconds m)%Q)).
Proof.
  intro m. split.
  - intros l w t0 pre i Hrec Hw Ht Hpre Hret Hlate.
    revert l Hrec Hw Ht.
    induction Hpre as [|j pre [Hrj Hj] _ IH]; intros l Hrec Hw Ht.
    + cbn [iterate]. exists [], l. repeat split; try assumption.
      rewrite (cycle_recording smooth m l i w t0) by assumption.
      assert (He : expired m i t0 = true) by (apply Qltb_lt; exact Hlate).
      rewrite He. do 3 eexists. split; [reflexivity|].
      destruct (refresh_keeps_session i (smooth (cam_frame i))
                  (Locals (gray_first_frame l) false None (Some t0)))
        as (R1 & R2 & _).
      rewrite R1, R2. repeat split.
    + cbn [iterate].
      rewrite (cycle_recording smooth m l j w t0) by assumption.
      assert (He : expired m j t0 = false) by (apply Qltb_ge; exact Hj).
      rewrite He.
      destruct (refresh_keeps_session j (smooth (cam_frame j)) l)
        as (R1 & R2 & R3).
      destruct (IH (refresh_reference j (smooth (cam_frame j)) l))
        as (ev & l1 & Hit & H1 & H2 & H3 & H4 & Hlast); try congruence.
      rewrite Hit.
      exists (VideoWriter_write w (snd (inspected smooth m l j)) :: ev), l1.
      repeat split; assumption.
  - intros l i Hret Hrec Hmd.
    rewrite cycle_idle_motion by assumption.
    do 3 eexists. split; [reflexivity|].
    match goal with |- context [refresh_reference i ?g ?x] =>
      destruct (refresh_keeps_session i g x) as (R1 & _) end.
    rewrite R1. unfold expired.
    destruct (Qltb (record_seconds m) (now_check i - now_start i)) eqn:E;
      cbn [is_recording released flat_map app].
    + apply Qltb_lt in E. split; split; try reflexivity; try discriminate.
      * intros _. exact E.
      * intro Hle. exfalso. exact (Qlt_not_le _ _ E Hle).
    + apply Qltb_ge in E. split; split; try reflexivity; try discriminate.
      * intro Hlt. exfalso. exact (Qlt_not_le _ _ Hlt E).
      * intros _. exact E.
Qed.

(** C8: an iteration that reads a frame replaces the reference frame by
    the smoothed current frame when the clock modulo 30 is below 1 and
    leaves it alone otherwise, in either recording state and whatever was
    detected. *)
Theorem C8_reference_refresh :
  forall m l i,
    ret i = true -> consistent l ->
    exists ev l' shown,
      cycle smooth m l i = (ev, Next l' shown) /\
      ((fmod (now_refresh i) 30 < 1)%Q ->
       gray_first_frame l' = smooth (cam_frame i)) /\
      (~ (fmod (now_refresh i) 30 < 1)%Q ->
       gray_first_frame l' = gray_first_frame l).
Proof.
  intros m l i Hret Hc.
  assert (Href : forall l0,
             ((fmod (now_refresh i) 30 < 1)%Q ->
              gray_first_frame (refresh_reference i (smooth (cam_frame i)) l0)
              = smooth (cam_frame i)) /\
             (~ (fmod (now_refresh i) 30 < 1)%Q ->
              gray_first_frame (refresh_reference i (smooth (cam_frame i)) l0)
              = gray_first_frame l0)).
  { intro l0. unfold refresh_reference.
    destruct (Qltb (fmod (now_refresh i) 30) 1) eqn:E.
    - apply Qltb_lt in E. split; [reflexivity|]. intro N. contradiction.
    - split; [|reflexivity]. intro Hlt. apply Qltb_lt in Hlt. congruence. }
  unfold consistent in Hc. destruct (is_recording l) eqn:Hrec.
  - destruct Hc as [Hw Ht].
    destruct (video_writer l) as [w|] eqn:Ew; [|congruence].
    destruct (record_start_time l) as [t0|] eqn:Et; [|congruence].
    rewrite (cycle_recording smooth m l i w t0) by assumption.
    do 3 eexists. split; [reflexivity|].
    destruct (expired m i t0);
      match goal with |- context [refresh_reference i _ ?x] =>
        exact (Href x) end.
  - destruct (fst (inspected smooth m l i)) eqn:Hmd.
    + rewrite cycle_idle_motion by assumption.
      do 3 eexists. split; [reflexivity|].
      destruct (expired m i (now_start i));
        match goal with |- context [refresh_reference i _ ?x] =>
          exact (Href x) end.
    + rewrite cycle_idle_still by assumption.
      do 3 eexists. split; [reflexivity|]. apply Href.
Qed.

End RecordingClaims.

(** *** The contour loop *)

Lemma check_contours_fold min_area cs : forall b f,
  fold_left (check_contour min_area) cs (b, f) =
  (b || existsb (survives min_area) cs,
   Frame (raw f)
         (boxes f ++ map box_of (map boundingRect (filter (survives min_area) cs)))
         (overlay f)).
Proof.
  induction cs as [|c cs IH]; intros b f; cbn [fold_left existsb filter map].
  - rewrite orb_false_r, app_nil_r. destruct f; reflexivity.
  - assert (Hc : check_contour min_area (b, f) c =
                 if survives min_area c
                 then (true, rectangle f (fst (box_of (boundingRect c)))
                                         (snd (box_of (boundingRect c))))
                 else (b, f)).
    { unfold check_contour, survives.
      destruct (Qltb (contourArea c) min_area); reflexivity. }
    rewrite Hc. destruct (survives min_area c); rewrite IH; cbn.
    + rewrite orb_true_r, <- app_assoc. reflexivity.
    + reflexivity.
Qed.

Lemma check_contours_spec min_area cs f :
  check_contours min_area cs f =
  (existsb (survives min_area) cs,
   Frame (raw f)
         (boxes f ++ map box_of (map boundingRect (filter (survives min_area) cs)))
         (overlay f)).
Proof. unfold check_contours. apply check_contours_fold. Qed.

Lemma survives_iff min_area c :
  survives min_area c = true <-> (min_area <= contourArea c)%Q.
Proof. unfold survives. rewrite negb_true_iff. apply Qltb_ge. Qed.

(** C9 (amended): the loop skips a contour exactly when
    [cv2.contourArea] of that contour, the area enclosed by its polygon,
    is below [min_area]; the contours it keeps set [motion_detected] and
    each has its bounding rectangle drawn on the frame. *)
Theorem C9_contours_filtered_by_contour_area :
  forall s min_area reference gray f,
    let cs := findContours (motion_mask s reference gray) in
    (forall c, In c cs -> forall b g,
        check_contour min_area (b, g) c = (b, g) <->
        (contourArea c < min_area)%Q) /\
    (fst (check_contours min_area cs f) = true <->
     exists c, In c cs /\ (min_area <= contourArea c)%Q) /\
    boxes (snd (check_contours min_area cs f))
    = boxes f ++ map box_of (motion_regions s min_area reference gray).
Proof.
  intros s min_area reference gray f cs. split; [|split].
  - intros c _ b g. unfold check_contour.
    destruct (Qltb (contourArea c) min_area) eqn:E.
    + split; [intros _; apply Qltb_lt; exact E | reflexivity].
    + split.
      * intro H. apply (f_equal (fun a => List.length (boxes (snd a)))) in H.
        cbn in H. rewrite length_app in H. cbn in H. lia.
      * intro H. apply Qltb_lt in H. congruence.
  - rewrite check_contours_spec. cbn [fst]. rewrite existsb_exists.
    split; intros (c & Hin & Hc); exists c; split; try assumption;
      apply survives_iff; assumption.
  - rewrite check_contours_spec. reflexivity.
Qed.

Section FrameFacts.

Variable smooth : bgr_image -> image.

Lemma inspected_frame m l i :
  raw (snd (inspected smooth m l i)) = cam_frame i /\
  overlay (snd (inspected smooth m l i)) = None.
Proof.
  unfold inspected. rewrite check_contours_spec. split; reflexivity.
Qed.

Lemma inspected_motion m l i :
  fst (inspected smooth m l i) = true <->
  exists c,
    In c (findContours (motion_mask (sensitivity m) (gray_first_frame l)
                                    (smooth (cam_frame i)))) /\
    (min_area m <= contourArea c)%Q.
Proof.
  unfold inspected. rewrite check_contours_spec. cbn [fst].
  rewrite existsb_exists.
  split; intros (c & Hin & Hc); exists c; split; try assumption;
    apply survives_iff; assumption.
Qed.

(** Every frame handed to the writer or saved as a screenshot in one
    iteration is the inspected frame. *)
Lemma cycle_frames m l i p f :
  In (p, f) (screenshots (fst (cycle smooth m l i))
             ++ written (fst (cycle smooth m l i))) ->
  f = snd (inspected smooth m l i).
Proof.
  destruct (ret i) eqn:Hret.
  2:{ unfold cycle. rewrite Hret. cbn. tauto. }
  rewrite cycle_unfold by assumption.
  unfold begin_recording, record_frame.
  destruct (fst (inspected smooth m l i) && negb (is_recording l));
    cbn [is_recording video_writer record_start_time];
    repeat match goal with
      | |- context [if ?b then _ else _] => destruct b
      | |- context [match ?o with Some _ => _ | None => _ end] => destruct o
      end;
    cbn; intuition congruence.
Qed.

End FrameFacts.

Lemma saved_app x a b :
  In x (saved (a ++ b)) <-> In x (saved a) \/ In x (saved b).
Proof.
  unfold saved, screenshots, written.
  rewrite !flat_map_app, !in_app_iff. tauto.
Qed.

Section TraceFacts.

Variable smooth : bgr_image -> image.

Lemma cycle_counts m l i :
  let ev := fst (cycle smooth m l i) in
  List.length (notifications ev) = List.length (opened ev) /\
  List.length (screenshots ev) = List.length (opened ev).
Proof.
  destruct (ret i) eqn:Hret.
  2:{ unfold cycle. rewrite Hret. cbn. auto. }
  rewrite cycle_unfold by assumption.
  unfold begin_recording, record_frame.
  destruct (fst (inspected smooth m l i) && negb (is_recording l));
    cbn [is_recording video_writer record_start_time];
    repeat match goal with
      | |- context [if ?b then _ else _] => destruct b
      | |- context [match ?o with Some _ => _ | None => _ end] => destruct o
      end;
    cbn; auto.
Qed.

Lemma iterate_cons m l i rest :
  iterate smooth m l (i :: rest) =
  match cycle smooth m l i with
  | (ev, Next l' _) =>
      (ev ++ fst (iterate smooth m l' rest), snd (iterate smooth m l' rest))
  | r => r
  end.
Proof.
  cbn [iterate]. destruct (cycle smooth m l i) as [ev [l' f|l'|l']];
    try reflexivity.
  destruct (iterate smooth m l' rest); reflexivity.
Qed.

Lemma iterate_counts m ticks : forall l,
  let ev := fst (iterate smooth m l ticks) in
  List.length (notifications ev) = List.length (opened ev) /\
  List.length (screenshots ev) = List.length (opened ev).
Proof.
  induction ticks as [|i rest IH]; intro l.
  - cbn. auto.
  - rewrite iterate_cons. pose proof (cycle_counts m l i) as Hc.
    destruct (cycle smooth m l i) as [ev [l' f|l'|l']]; cbn [fst] in *;
      try exact Hc.
    destruct (IH l') as [H1 H2]. destruct Hc as [C1 C2].
    unfold notifications, opened, screenshots in *.
    rewrite !flat_map_app, !length_app. lia.
Qed.

Lemma iterate_saved m ticks : forall l p f,
  In (p, f) (saved (fst (iterate smooth m l ticks))) -> overlay f = None.
Proof.
  induction ticks as [|i rest IH]; intros l p f Hin.
  - cbn in Hin. contradiction.
  - rewrite iterate_cons in Hin.
    pose proof (cycle_frames smooth m l i p f) as Hc.
    fold (saved (fst (cycle smooth m l i))) in Hc.
    destruct (cycle smooth m l i) as [ev [l' g|l'|l']]; cbn [fst] in *.
    + apply saved_app in Hin. destruct Hin as [Hin|Hin].
      * rewrite (Hc Hin). apply inspected_frame.
      * exact (IH l' p f Hin).
    + rewrite (Hc Hin). apply inspected_frame.
    + rewrite (Hc Hin). apply inspected_frame.
Qed.

End TraceFacts.

Section SessionClaims.

Variable smooth : bgr_image -> image.

Lemma iterate_before_release m ticks : forall l w t0,
  is_recording l = true ->
  video_writer l = Some w -> record_start_time l = Some t0 ->
  let ev := before_release (fst (iterate smooth m l ticks)) in
  notifications ev = [] /\ opened ev = [] /\ screenshots ev = [].
Proof.
  induction ticks as [|i rest IH]; intros l w t0 Hrec Hw Ht.
  - cbn. auto.
  - rewrite iterate_cons. destruct (ret i) eqn:Hret.
    2:{ unfold cycle. rewrite Hret. cbn. auto. }
    rewrite (cycle_recording smooth m l i w t0) by assumption.
    destruct (expired m i t0); cbn [fst app before_release].
    + cbn. auto.
    + destruct (refresh_keeps_session i (smooth (cam_frame i)) l)
        as (R1 & R2 & R3).
      destruct (IH (refresh_reference i (smooth (cam_frame i)) l) w t0)
        as (H1 & H2 & H3); try congruence.
      cbn. auto.
Qed.

(** C2 (amended): an iteration that starts idle and finds a contour of
    area at least [min_area] opens one video writer, stores the start
    time read from the clock, saves one screenshot of the current frame,
    asks for one notification with that screenshot and records the
    frame.  It ends recording when the duration test of the same
    iteration finds at most [record_seconds] elapsed since that start
    time; otherwise the writer is released again at once and the
    iteration ends idle.  As long as the recording has not been released
    no other notification, screenshot or writer appears, and later ones
    always come together. *)
Theorem C2_motion_while_idle_starts_one_session :
  forall m l i,
    ret i = true ->
    is_recording l = false ->
    (exists c,
        In c (findContours (motion_mask (sensitivity m) (gray_first_frame l)
                                        (smooth (cam_frame i)))) /\
        (min_area m <= contourArea c)%Q) ->
    exists ev l' shown,
      let fr := snd (inspected smooth m l i) in
      cycle smooth m l i = (ev, Next l' shown) /\
      raw fr = cam_frame i /\
      opened ev = [video_path_of m i] /\
      screenshots ev = [(screenshot_path_of m i, fr)] /\
      notifications ev = [screenshot_path_of m i] /\
      written ev = [(video_path_of m i, fr)] /\
      record_start_time l' = Some (now_start i) /\
      ((now_check i - now_start i <= record_seconds m)%Q ->
       is_recording l' = true /\
       video_writer l' = Some (video_path_of m i) /\
       released ev = []) /\
      ((record_seconds m < now_check i - now_start i)%Q ->
       is_recording l' = false /\
       video_writer l' = None /\
       released ev = [video_path_of m i]) /\
      forall post,
        let ev' := fst (iterate smooth m l' post) in
        List.length (notifications ev') = List.length (opened ev') /\
        (is_recording l' = true ->
         notifications (before_release ev') = [] /\
         opened (before_release ev') = [] /\
         screenshots (before_release ev') = []).
Proof.
  intros m l i Hret Hrec Hmotion.
  apply inspected_motion in Hmotion.
  rewrite cycle_idle_motion by assumption.
  do 3 eexists. cbn zeta. split; [reflexivity|].
  split; [apply inspected_frame|].
  match goal with |- context [refresh_reference i ?g ?x] =>
    destruct (refresh_keeps_session i g x) as (R1 & R2 & R3);
    set (l' := refresh_reference i g x) in * end.
  unfold expired in *.
  destruct (Qltb (record_seconds m) (now_check i - now_start i)) eqn:E;
    cbn in R1, R2, R3;
    (do 4 (split; [reflexivity|])); (split; [exact R3|]).
  - apply Qltb_lt in E. split; [|split].
    + intro Hle. exfalso. exact (Qlt_not_le _ _ E Hle).
    + intros _. repeat split; assumption.
    + intro post. split; [apply iterate_counts|]. intro H. congruence.
  - apply Qltb_ge in E. split; [|split].
    + intros _. repeat split; assumption.
    + intro Hlt. exfalso. exact (Qlt_not_le _ _ Hlt E).
    + intro post. split; [apply iterate_counts|]. intros _.
      apply (iterate_before_release m post l' (video_path_of m i)
               (now_start i)); assumption.
Qed.

(** C3: replaying the events of any run of the loop, a writer is only
    ever opened when none is open, so at most one recording is active;
    and an iteration that starts while recording, whatever its frame
    shows, opens nothing, saves no screenshot, sends nothing, keeps the
    start time, decides on closing from the clock alone, and writes the
    current frame to the open writer. *)
Theorem C3_one_session_at_a_time :
  forall m,
    (forall first ticks,
        exists ev l',
          iterate smooth m (initial smooth first) ticks = (ev, Leave l') /\
          sessions None ev = Some (video_writer l')) /\
    (forall l w t0 i,
        ret i = true -> is_recording l = true ->
        video_writer l = Some w -> record_start_time l = Some t0 ->
        exists ev l' shown,
          cycle smooth m l i = (ev, Next l' shown) /\
          ev = VideoWriter_write w (snd (inspected smooth m l i))
                 :: (if expired m i t0
                     then [VideoWriter_release w; Log_info Recording_finished]
                     else []) /\
          opened ev = [] /\ screenshots ev = [] /\ notifications ev = [] /\
          written ev = [(w, snd (inspected smooth m l i))] /\
          record_start_time l' = Some t0 /\
          is_recording l' = negb (expired m i t0) /\
          video_writer l' = if expired m i t0 then None else Some w).
Proof.
  intro m. split.
  - intros first ticks.
    destruct (iterate_sessions smooth m ticks (initial smooth first))
      as (ev & l' & Hit & _ & Hs).
    + reflexivity.
    + exists ev, l'. split; assumption.
  - intros l w t0 i Hret Hrec Hw Ht.
    rewrite (cycle_recording smooth m l i w t0) by assumption.
    do 3 eexists. split; [reflexivity|]. split; [reflexivity|].
    match goal with |- context [refresh_reference i ?g ?x] =>
      destruct (refresh_keeps_session i g x) as (R1 & R2 & R3) end.
    rewrite R1, R2, R3.
    destruct (expired m i t0); cbn; repeat split; assumption.
Qed.

(** C7 (amended): the timestamp text is put on the frame at the end of
    the iteration, after the frame has been recorded and after the
    screenshot has been saved, and each iteration works on a new frame;
    so no recorded frame and no screenshot carries the overlay, while the
    frame left at the end of the iteration does. *)
Theorem C7_overlay_after_writes :
  forall m l ticks,
    (forall p f,
        In (p, f) (saved (fst (iterate smooth m l ticks))) ->
        overlay f = None) /\
    (forall i ev l' shown,
        cycle smooth m l i = (ev, Next l' shown) ->
        overlay shown = Some (now_text i) /\
        forall p f, In (p, f) (saved ev) ->
                    shown = putText f (now_text i)).
Proof.
  intros m l ticks. split.
  - apply iterate_saved.
  - intros i ev l' shown Hcy.
    destruct (ret i) eqn:Hret.
    2:{ unfold cycle in Hcy. rewrite Hret in Hcy. discriminate. }
    assert (Hshown : shown = putText (snd (inspected smooth m l i)) (now_text i)).
    { rewrite cycle_unfold in Hcy by assumption.
      destruct (begin_recording _ _ _ _ _) as [l1 ev1].
      destruct (record_frame _ _ _ _) as [ev2 [l2|]]; congruence. }
    split; [rewrite Hshown; reflexivity|].
    intros p f Hin.
    pose proof (cycle_frames smooth m l i p f) as Hf.
    rewrite Hcy in Hf. cbn [fst] in Hf. rewrite (Hf Hin). exact Hshown.
Qed.

End SessionClaims.

(** *** Images without foreground *)

Lemma pix_blank m x y : blank m -> pix m x y = 0.
Proof.
  intro Hb. unfold pix. destruct ((x <? 0) || (y <? 0)); [reflexivity|].
  destruct (nth_error m (Z.to_nat y)) as [row|] eqn:Er; [|reflexivity].
  destruct (nth_error row (Z.to_nat x)) as [v|] eqn:Ev; [|reflexivity].
  apply nth_error_In in Er, Ev.
  unfold blank in Hb. rewrite Forall_forall in Hb.
  specialize (Hb row Er). rewrite Forall_forall in Hb. exact (Hb v Ev).
Qed.

Lemma threshold_below d s v : below s d -> blank (threshold d s v).
Proof.
  unfold below, blank, threshold. intro H.
  apply Forall_map. eapply Forall_impl; [|exact H].
  intros row Hrow. apply Forall_map. eapply Forall_impl; [|exact Hrow].
  cbn. intros p Hp. destruct (s <? p) eqn:E; [|reflexivity].
  apply Z.ltb_lt in E. lia.
Qed.

Lemma max9_blank m x y : blank m -> max9 m x y = 0.
Proof.
  intro Hb. unfold max9, pix_at. cbn [zrange seq map fold_left].
  rewrite !pix_blank by assumption. reflexivity.
Qed.

Lemma dilate1_blank m : blank m -> blank (dilate1 m).
Proof.
  intro Hb. unfold dilate1, blank.
  apply Forall_map, Forall_forall. intros y _.
  apply Forall_map, Forall_forall. intros x _.
  apply max9_blank. exact Hb.
Qed.

Lemma dilate_blank n : forall m, blank m -> blank (dilate m n).
Proof.
  induction n as [|n IH]; intros m Hb; cbn [dilate].
  - exact Hb.
  - apply IH, dilate1_blank, Hb.
Qed.

Lemma pix_binarize_zero m x y : pix m x y = 0 -> pix (binarize m) x y = 0.
Proof.
  unfold pix, binarize. destruct ((x <? 0) || (y <? 0)); [reflexivity|].
  rewrite nth_error_map.
  destruct (nth_error m (Z.to_nat y)) as [row|]; cbn; [|reflexivity].
  rewrite nth_error_map.
  destruct (nth_error row (Z.to_nat x)) as [p|]; cbn; [|reflexivity].
  intro E. rewrite E. reflexivity.
Qed.

Lemma scan_pixel_dark y sc x :
  (forall u v, pix (sc_img sc) u v = 0) -> scan_pixel y sc x = sc.
Proof.
  intro Hz. unfold scan_pixel. rewrite !Hz. reflexivity.
Qed.

Lemma scan_pixels_dark y xs : forall sc,
  (forall u v, pix (sc_img sc) u v = 0) ->
  fold_left (scan_pixel y) xs sc = sc.
Proof.
  induction xs as [|x xs IH]; intros sc Hz; cbn [fold_left].
  - reflexivity.
  - rewrite scan_pixel_dark by assumption. apply IH, Hz.
Qed.

Lemma scan_rows_dark w ys : forall sc,
  (forall u v, pix (sc_img sc) u v = 0) ->
  sc_found (fold_left (scan_row w) ys sc) = sc_found sc.
Proof.
  induction ys as [|y ys IH]; intros sc Hz; cbn [fold_left].
  - reflexivity.
  - unfold scan_row at 2. rewrite scan_pixels_dark by exact Hz.
    rewrite IH by exact Hz. reflexivity.
Qed.

(** A mask without a set pixel has no contour. *)
Lemma findContours_dark m :
  (forall x y, pix m x y = 0) -> findContours m = [].
Proof.
  intro Hz. unfold findContours.
  rewrite scan_rows_dark; [reflexivity|].
  cbn [sc_img]. intros u v. apply pix_binarize_zero, Hz.
Qed.

Lemma findContours_blank m : blank m -> findContours m = [].
Proof.
  intro Hb. apply findContours_dark. intros x y. apply pix_blank, Hb.
Qed.

Lemma motion_mask_blank s reference gray :
  below s (absdiff reference gray) -> blank (motion_mask s reference gray).
Proof.
  intro H. unfold motion_mask. apply dilate_blank, threshold_below, H.
Qed.

(** *** The mask shrinks when the threshold grows *)













Section QuietClaims.

Variable smooth : bgr_image -> image.

Lemma quiet_firstn m k : forall ticks reference,
  quiet smooth m reference ticks ->
  quiet smooth m reference (firstn k ticks).
Proof.
  induction k as [|k IH]; intros ticks reference H.
  - exact I.
  - destruct ticks as [|i rest]; [exact I|].
    cbn [firstn quiet] in *. destruct H as [H1 H2].
    split; [exact H1 | apply IH, H2].
Qed.

Lemma inspected_still m l i :
  below (sensitivity m) (absdiff (gray_first_frame l) (smooth (cam_frame i))) ->
  fst (inspected smooth m l i) = false.
Proof.
  intro H. unfold inspected.
  rewrite findContours_blank by (apply motion_mask_blank, H).
  reflexivity.
Qed.

Lemma iterate_quiet m ticks : forall l,
  is_recording l = false ->
  quiet smooth m (gray_first_frame l) ticks ->
  let r := iterate smooth m l ticks in
  is_recording (locals_of (snd r)) = false /\
  opened (fst r) = [] /\ notifications (fst r) = [] /\
  screenshots (fst r) = [] /\ written (fst r) = [].
Proof.
  induction ticks as [|i rest IH]; intros l Hrec Hq.
  - cbn. auto.
  - cbn [quiet] in Hq. destruct Hq as [Hstill Hrest].
    rewrite iterate_cons. destruct (ret i) eqn:Hret.
    2:{ unfold cycle. rewrite Hret. cbn. auto. }
    rewrite cycle_idle_still
      by (try assumption; apply inspected_still, Hstill).
    cbn [fst snd app]. apply IH.
    + destruct (refresh_keeps_session i (smooth (cam_frame i)) l) as (R1 & _).
      congruence.
    + unfold refresh_reference.
      destruct (Qltb (fmod (now_refresh i) 30) 1); exact Hrest.
Qed.

(** C4: when on every frame of a run no pixel of the absolute difference
    between the reference frame of the moment and the smoothed frame
    exceeds the sensitivity, the loop is idle after every number of
    iterations and has opened no writer, saved no screenshot, written no
    frame and asked for no notification. *)
Theorem C4_no_change_no_recording :
  forall m first ticks,
    quiet smooth m (smooth first) ticks ->
    forall k,
      let r := iterate smooth m (initial smooth first) (firstn k ticks) in
      is_recording (locals_of (snd r)) = false /\
      opened (fst r) = [] /\ notifications (fst r) = [] /\
      screenshots (fst r) = [] /\ written (fst r) = [].
Proof.
  intros m first ticks Hq k.
  apply iterate_quiet; [reflexivity|].
  apply quiet_firstn. exact Hq.
Qed.

(** C6 (amended): [start()] on a monitor that is not running answers
    "started" before the camera is touched; when the camera then cannot
    be opened the thread logs the error, releases the handle, clears
    [is_running] and ends without reading a frame.  [start()] has no
    other answers than "started" and "already running". *)
Theorem C6_start_answers_before_camera_opens :
  forall m first ticks e,
    is_running m = false ->
    let r := start_session smooth m false first ticks e in
    fst r = msg_started /\
    is_running (fst (snd r)) = false /\
    snd (snd r) = [Log_error Camera_not_opened; Camera_release] /\
    forall m', fst (start m') = msg_started \/
               fst (start m') = msg_already_running.
Proof.
  intros m first ticks e Hrun. unfold start_session, start. rewrite Hrun.
  cbn. repeat split.
  intro m'. destruct (is_running m'); cbn; auto.
Qed.

End QuietClaims.

Lemma run_calls_instance cs : forall w,
  security_monitor_instance w = None ->
  security_monitor_instance (run_calls w cs) = None.
Proof.
  unfold run_calls.
  induction cs as [|c cs IH]; intros w Hw; cbn [fold_left].
  - exact Hw.
  - apply IH. destruct c as [cid s rs nm|]; cbn [run_call].
    + unfold start_security_monitoring.
      destruct (start _) as [msg mon]. exact Hw.
    + unfold stop_security_monitoring. rewrite Hw. exact Hw.
Qed.

(** C10: whatever module-level calls came before, a call of
    [start_security_monitoring] starts a monitor and leaves the global
    [security_monitor_instance] at [None]; the following
    [stop_security_monitoring] therefore answers "was not started" and
    changes nothing, so the monitor just started keeps running. *)
Theorem C10_module_stop_misses_started_monitor :
  forall cs camera_id sensitivity record_seconds notify_method,
    let w := run_calls loaded cs in
    let r := start_security_monitoring camera_id sensitivity record_seconds
                                       notify_method w in
    fst r = msg_started /\
    security_monitor_instance (snd r) = None /\
    (exists mon,
        nth_error (monitors (snd r)) (List.length (monitors w)) = Some mon /\
        is_running mon = true) /\
    stop_security_monitoring (snd r) = (msg_was_not_started, snd r).
Proof.
  intros cs cid s rs nm w r.
  assert (Hw : security_monitor_instance w = None)
    by (apply run_calls_instance; reflexivity).
  subst r. unfold start_security_monitoring. cbn.
  repeat split.
  - exact Hw.
  - eexists. split.
    + rewrite nth_error_app2 by lia. rewrite Nat.sub_diag. reflexivity.
    + reflexivity.
  - unfold stop_security_monitoring. cbn. rewrite Hw. reflexivity.
Qed.

(** ** The model on the sample frames *)

Example dot_contours :
  findContours (motion_mask 20 (dark 7 7) dot) = [square].
Proof. reflexivity. Qed.

Example square_area : contourArea square = (32 # 2)%Q.
Proof. reflexivity. Qed.

Example square_bounds : boundingRect square = Rect 1 1 5 5.
Proof. reflexivity. Qed.

Example bridge_regions :
  motion_regions 20 10 (dark 17 9) bridge = [Rect 2 2 13 5] /\
  motion_regions 50 10 (dark 17 9) bridge = [Rect 10 2 5 5; Rect 2 2 5 5].
Proof. split; reflexivity. Qed.

Example half_past_thirty : (fmod (61 # 2) 30 == 1 # 2)%Q.
Proof. reflexivity. Qed.

Example messages_differ :
  msg_started <> msg_already_running /\ msg_was_not_started <> msg_stopped.
Proof. split; discriminate. Qed.

(** ** The claims at concrete inputs *)

(** C1 as worded fails: with [record_seconds] = 10 and exactly 10 seconds
    elapsed at the duration test, the recording is still open after the
    iteration. *)
Lemma C1_counterexample :
  ~ (forall (smooth : bgr_image -> image) m l w t0 i,
        is_recording l = true ->
        video_writer l = Some w ->
        record_start_time l = Some t0 ->
        ret i = true ->
        (record_seconds m <= now_check i - t0)%Q ->
        is_recording (locals_of (snd (cycle smooth m l i))) = false).
Proof.
  intro H.
  specialize (H green sample_monitor sample_recording _ _
                (sample_tick (dark 7 7) 10) eq_refl eq_refl eq_refl eq_refl).
  assert (Hle : (record_seconds sample_monitor
                 <= now_check (sample_tick (dark 7 7) 10) - 0)%Q)
    by (apply Qle_bool_iff; reflexivity).
  specialize (H Hle). vm_compute in H. discriminate.
Qed.

Lemma C1_witness :
  Forall (fun j => ret j = true /\
                   (now_check j - 0 <= record_seconds sample_monitor)%Q)
         [sample_tick dot 3; sample_tick (dark 7 7) 10] /\
  (record_seconds sample_monitor < now_check (sample_tick dim 11) - 0)%Q /\
  exists ev l1,
    iterate green sample_monitor sample_recording
            [sample_tick dot 3; sample_tick (dark 7 7) 10] = (ev, Leave l1) /\
    is_recording l1 = true /\
    video_writer l1 = Some "security_recordings/motion_x.avi"%string /\
    record_start_time l1 = Some 0%Q /\
    released ev = [] /\
    exists ev' l2 shown,
      cycle green sample_monitor l1 (sample_tick dim 11) = (ev', Next l2 shown) /\
      released ev' = ["security_recordings/motion_x.avi"%string] /\
      is_recording l2 = false /\ video_writer l2 = None.
Proof.
  assert (Hpre : Forall (fun j => ret j = true /\
                   (now_check j - 0 <= record_seconds sample_monitor)%Q)
                 [sample_tick dot 3; sample_tick (dark 7 7) 10]).
  { repeat constructor; apply Qle_bool_iff; reflexivity. }
  assert (Hlate : (record_seconds sample_monitor
                   < now_check (sample_tick dim 11) - 0)%Q)
    by reflexivity.
  split; [exact Hpre|]. split; [exact Hlate|].
  exact (proj1 (C1_recording_closes_after_deadline green sample_monitor)
           sample_recording _ 0%Q _ (sample_tick dim 11)
           eq_refl eq_refl eq_refl Hpre eq_refl Hlate).
Defined.

(** C2 as worded fails: when the duration test of the starting iteration
    already finds more than [record_seconds] elapsed (start time read at
    3, test at 14, [record_seconds] = 10), the iteration ends idle. *)
Lemma C2_counterexample :
  ~ (forall (smooth : bgr_image -> image) m l i,
        ret i = true ->
        is_recording l = false ->
        (exists c,
            In c (findContours
                    (motion_mask (sensitivity m) (gray_first_frame l)
                                 (smooth (cam_frame i)))) /\
            (min_area m <= contourArea c)%Q) ->
        is_recording (locals_of (snd (cycle smooth m l i))) = true).
Proof.
  intro H.
  assert (Hm : exists c,
             In c (findContours
                     (motion_mask (sensitivity sample_monitor)
                                  (gray_first_frame sample_idle)
                                  (green (cam_frame sample_slow_tick)))) /\
             (min_area sample_monitor <= contourArea c)%Q).
  { exists square. split.
    - vm_compute. left. reflexivity.
    - apply Qle_bool_iff. reflexivity. }
  specialize (H green sample_monitor sample_idle sample_slow_tick
                eq_refl eq_refl Hm).
  vm_compute in H. discriminate.
Qed.

Lemma C2_witness :
  (exists c,
      In c (findContours
              (motion_mask (sensitivity sample_monitor)
                           (gray_first_frame sample_idle)
                           (green (cam_frame (sample_tick dot 3))))) /\
      (min_area sample_monitor <= contourArea c)%Q) /\
  (now_check (sample_tick dot 3) - now_start (sample_tick dot 3)
   <= record_seconds sample_monitor)%Q /\
  exists ev l' shown,
    cycle green sample_monitor sample_idle (sample_tick dot 3)
    = (ev, Next l' shown) /\
    opened ev = ["security_recordings/motion_20240101_120000.avi"%string] /\
    screenshots ev
    = [("security_recordings/motion_20240101_120000.jpg"%string, sample_shot)] /\
    notifications ev
    = ["security_recordings/motion_20240101_120000.jpg"%string] /\
    is_recording l' = true /\
    record_start_time l' = Some 3%Q.
Proof.
  assert (Hm : exists c,
             In c (findContours
                     (motion_mask (sensitivity sample_monitor)
                                  (gray_first_frame sample_idle)
                                  (green (cam_frame (sample_tick dot 3))))) /\
             (min_area sample_monitor <= contourArea c)%Q).
  { exists square. split.
    - vm_compute. left. reflexivity.
    - apply Qle_bool_iff. reflexivity. }
  assert (Hle : (now_check (sample_tick dot 3) - now_start (sample_tick dot 3)
                 <= record_seconds sample_monitor)%Q)
    by (apply Qle_bool_iff; reflexivity).
  split; [exact Hm|]. split; [exact Hle|].
  destruct (C2_motion_while_idle_starts_one_session green sample_monitor
              sample_idle (sample_tick dot 3) eq_refl eq_refl Hm)
    as (ev & l' & shown & Hcy & Hraw & Ho & Hs & Hn & Hwr & Ht & Hopen & _).
  destruct (Hopen Hle) as (Hr & _ & _).
  exists ev, l', shown.
  assert (E : cycle green sample_monitor sample_idle (sample_tick dot 3)
              = (ev, Next l' shown)) by exact Hcy.
  vm_compute in E. injection E as E1 E2 E3. subst ev l' shown.
  repeat split.
Defined.

Lemma C3_witness :
  exists ev l' shown,
    cycle green sample_monitor sample_recording (sample_tick dot 3)
    = (ev, Next l' shown) /\
    ev = [VideoWriter_write "security_recordings/motion_x.avi" sample_shot] /\
    record_start_time l' = Some 0%Q /\
    is_recording l' = true /\
    video_writer l' = Some "security_recordings/motion_x.avi"%string.
Proof.
  destruct (proj2 (C3_one_session_at_a_time green sample_monitor)
              sample_recording _ 0%Q (sample_tick dot 3)
              eq_refl eq_refl eq_refl eq_refl)
    as (ev & l' & shown & Hcy & Hev & _ & _ & _ & _ & Ht & Hr & Hw).
  exists ev, l', shown. repeat split; assumption.
Defined.

Lemma C4_witness :
  quiet green sample_monitor (green (gray_bgr (dark 7 7)))
        [sample_tick dim (61 # 2); sample_tick (dark 7 7) 32] /\
  forall k,
    is_recording
      (locals_of
         (snd (iterate green sample_monitor
                       (initial green (gray_bgr (dark 7 7)))
                       (firstn k [sample_tick dim (61 # 2);
                                  sample_tick (dark 7 7) 32]))))
    = false /\
    opened (fst (iterate green sample_monitor
                         (initial green (gray_bgr (dark 7 7)))
                         (firstn k [sample_tick dim (61 # 2);
                                    sample_tick (dark 7 7) 32]))) = [] /\
    notifications (fst (iterate green sample_monitor
                         (initial green (gray_bgr (dark 7 7)))
                         (firstn k [sample_tick dim (61 # 2);
                                    sample_tick (dark 7 7) 32]))) = [].
Proof.
  assert (Hq : quiet green sample_monitor (green (gray_bgr (dark 7 7)))
                 [sample_tick dim (61 # 2); sample_tick (dark 7 7) 32]).
  { cbn [quiet]. split; [|split; [|exact I]];
      vm_compute; repeat constructor; discriminate. }
  split; [exact Hq|]. intro k.
  destruct (C4_no_change_no_recording green sample_monitor
              (gray_bgr (dark 7 7)) _ Hq k) as (H1 & H2 & H3 & _).
  repeat split; assumption.
Defined.


(** C6 as worded fails: with a camera that cannot be opened, [start()]
    still answers "started". *)
Lemma C6_counterexample :
  ~ (forall (smooth : bgr_image -> image) m first ticks e,
        is_running m = false ->
        fst (start_session smooth m false first ticks e) <> msg_started).
Proof.
  intro H.
  exact (H green sample_stopped None [] Stop_before_head eq_refl eq_refl).
Qed.

Lemma C6_witness :
  is_running sample_stopped = false /\
  fst (start_session green sample_stopped false None [] Stop_before_head) = msg_started /\
  is_running (fst (snd (start_session green sample_stopped false None [] Stop_before_head)))
  = false /\
  snd (snd (start_session green sample_stopped false None [] Stop_before_head))
  = [Log_error Camera_not_opened; Camera_release].
Proof.
  split; [reflexivity|].
  destruct (C6_start_answers_before_camera_opens green sample_stopped None []
              Stop_before_head eq_refl) as (H1 & H2 & H3 & _).
  repeat split; assumption.
Defined.

(** C7 as worded fails: the screenshot saved when the dot appears has no
    overlay. *)
Lemma C7_counterexample :
  ~ (forall (smooth : bgr_image -> image) m l ticks p f,
        In (p, f) (saved (fst (iterate smooth m l ticks))) ->
        overlay f <> None).
Proof.
  intro H.
  apply (H green sample_monitor sample_idle [sample_tick dot 3]
           "security_recordings/motion_20240101_120000.jpg"%string
           sample_shot).
  - vm_compute. left. reflexivity.
  - reflexivity.
Qed.

Lemma C7_witness :
  In ("security_recordings/motion_20240101_120000.jpg"%string, sample_shot)
     (saved (fst (iterate green sample_monitor sample_idle
                          [sample_tick dot 3]))) /\
  overlay sample_shot = None.
Proof.
  assert (Hin : In ("security_recordings/motion_20240101_120000.jpg"%string,
                    sample_shot)
                   (saved (fst (iterate green sample_monitor sample_idle
                                        [sample_tick dot 3]))))
    by (vm_compute; left; reflexivity).
  split; [exact Hin|].
  exact (proj1 (C7_overlay_after_writes green sample_monitor sample_idle
                  [sample_tick dot 3]) _ _ Hin).
Defined.

Lemma C8_witness :
  consistent sample_idle /\
  (fmod (now_refresh (sample_tick dim (61 # 2))) 30 < 1)%Q /\
  exists ev l' shown,
    cycle green sample_monitor sample_idle (sample_tick dim (61 # 2))
    = (ev, Next l' shown) /\
    gray_first_frame l' = green (cam_frame (sample_tick dim (61 # 2))).
Proof.
  assert (Hc : consistent sample_idle) by reflexivity.
  assert (Hlt : (fmod (now_refresh (sample_tick dim (61 # 2))) 30 < 1)%Q)
    by reflexivity.
  split; [exact Hc|]. split; [exact Hlt|].
  destruct (C8_reference_refresh green sample_monitor sample_idle
              (sample_tick dim (61 # 2)) eq_refl Hc)
    as (ev & l' & shown & Hcy & Hyes & _).
  exists ev, l', shown. split; [exact Hcy | exact (Hyes Hlt)].
Defined.

(** C9 as worded fails: the contour of the grown dot has bounding
    rectangle 5x5 = 25, not below [min_area] = 20, and is skipped all the
    same, because its contour area is 16. *)
Lemma C9_counterexample :
  ~ (forall s min_area reference gray c,
        In c (findContours (motion_mask s reference gray)) ->
        forall b g,
          check_contour min_area (b, g) c = (b, g) <->
          (inject_Z (rect_area (boundingRect c)) < min_area)%Q).
Proof.
  intro H.
  assert (Hin : In square (findContours (motion_mask 20 (dark 7 7) dot)))
    by (vm_compute; left; reflexivity).
  destruct (H 20 20%Q (dark 7 7) dot square Hin false sample_shot) as [Hskip _].
  specialize (Hskip eq_refl). vm_compute in Hskip. discriminate.
Qed.

Lemma C9_witness :
  In square (findContours (motion_mask 20 (dark 7 7) dot)) /\
  (contourArea square < 20)%Q /\
  check_contour 20 (false, sample_shot) square = (false, sample_shot).
Proof.
  assert (Hin : In square (findContours (motion_mask 20 (dark 7 7) dot)))
    by (vm_compute; left; reflexivity).
  assert (Hlt : (contourArea square < 20)%Q) by reflexivity.
  split; [exact Hin|]. split; [exact Hlt|].
  exact (proj2 (proj1 (C9_contours_filtered_by_contour_area
                         20 20%Q (dark 7 7) dot sample_shot)
                      square Hin false sample_shot) Hlt).
Defined.

(** ** Further properties of the monitor *)

(** X2: [stop()] always leaves the monitor not running; a second
    [stop()] answers "not running", changes nothing and releases
    nothing; after a [stop()], [start()] answers "started" again. *)
Theorem X2_stop_then_stop_or_start :
  forall m,
    let m1 := snd (fst (stop m)) in
    is_running m1 = false /\
    stop m1 = (msg_not_running, m1, []) /\
    fst (start m1) = msg_started.
Proof.
  intro m. unfold stop. destruct (is_running m) eqn:E; cbn.
  - destruct (camera m); cbn; auto.
  - unfold start. rewrite E. cbn. auto.
Qed.

(** X3: [stop()] on a running monitor answers "stopped", forgets the
    camera handle, and releases it exactly when there was one. *)
Theorem X3_stop_running_monitor :
  forall m,
    is_running m = true ->
    fst (fst (stop m)) = msg_stopped /\
    camera (snd (fst (stop m))) = None /\
    camera_releases (snd (stop m))
    = match camera m with Some _ => 1%nat | None => O end.
Proof.
  intros m E. unfold stop. rewrite E. cbn.
  destruct (camera m) eqn:Ec; cbn; auto.
Qed.

Lemma X3_witness :
  is_running sample_monitor = true /\
  fst (fst (stop sample_monitor)) = msg_stopped /\
  camera (snd (fst (stop sample_monitor))) = None.
Proof.
  split; [reflexivity|].
  destruct (X3_stop_running_monitor sample_monitor eq_refl) as (H1 & H2 & _).
  split; assumption.
Defined.

Lemma camera_releases_app a b :
  camera_releases (a ++ b) = (camera_releases a + camera_releases b)%nat.
Proof.
  unfold camera_releases. rewrite filter_app, length_app. reflexivity.
Qed.

Section WholeLoop.

Variable smooth : bgr_image -> image.

Lemma cycle_no_camera_release m l i :
  camera_releases (fst (cycle smooth m l i)) = O.
Proof.
  destruct (ret i) eqn:Hret.
  2:{ unfold cycle. rewrite Hret. reflexivity. }
  rewrite cycle_unfold by assumption.
  unfold begin_recording, record_frame.
  destruct (fst (inspected smooth m l i) && negb (is_recording l));
    cbn [is_recording video_writer record_start_time];
    repeat match goal with
      | |- context [if ?b then _ else _] => destruct b
      | |- context [match ?o with Some _ => _ | None => _ end] => destruct o
      end;
    reflexivity.
Qed.

Lemma iterate_no_camera_release m ticks : forall l,
  camera_releases (fst (iterate smooth m l ticks)) = O.
Proof.
  induction ticks as [|i rest IH]; intro l.
  - reflexivity.
  - rewrite iterate_cons. pose proof (cycle_no_camera_release m l i) as Hc.
    destruct (cycle smooth m l i) as [ev [l' f|l'|l']]; cbn [fst] in *;
      try exact Hc.
    rewrite camera_releases_app, Hc, IH. reflexivity.
Qed.

(** X6: a failed [camera.read()] ends the loop: the iteration logs the
    error and changes nothing, and whatever ticks would follow are not
    looked at. *)
Theorem X6_failed_read_ends_loop :
  forall m pre bad rest l,
    ret bad = false ->
    iterate smooth m l (pre ++ bad :: rest)
    = iterate smooth m l (pre ++ [bad]) /\
    cycle smooth m l bad = ([Log_error Read_failed], Leave l).
Proof.
  intros m pre bad rest l Hbad. split.
  - revert l. induction pre as [|i pre IH]; intro l;
      cbn [app]; rewrite !iterate_cons.
    + unfold cycle. rewrite Hbad. reflexivity.
    + destruct (cycle smooth m l i) as [ev [l' f|l'|l']]; try reflexivity.
      rewrite IH. reflexivity.
  - unfold cycle. rewrite Hbad. reflexivity.
Qed.

End WholeLoop.

Lemma X6_witness :
  ret (sample_failed_read) = false /\
  iterate green sample_monitor sample_idle
          ([sample_tick dot 3] ++ sample_failed_read :: [sample_tick dim 4])
  = iterate green sample_monitor sample_idle
            ([sample_tick dot 3] ++ [sample_failed_read]).
Proof.
  split; [reflexivity|].
  exact (proj1 (X6_failed_read_ends_loop green sample_monitor
                  [sample_tick dot 3] (sample_failed_read)
                  [sample_tick dim 4] sample_idle eq_refl)).
Defined.

(** *** Frames that cannot trigger *)

Lemma absdiff_self a : blank (absdiff a a).
Proof.
  unfold blank, absdiff. induction a as [|row a IH]; cbn [map2].
  - constructor.
  - constructor; [|exact IH].
    clear IH. induction row as [|p row IHr]; cbn [map2]; constructor.
    + rewrite Z.sub_diag. reflexivity.
    + exact IHr.
Qed.

Lemma blank_below s d : 0 <= s -> blank d -> below s d.
Proof.
  intros Hs H. unfold below, blank in *.
  eapply Forall_impl; [|exact H]. intros row Hrow.
  eapply Forall_impl; [|exact Hrow]. cbn. intros p Hp. lia.
Qed.

Lemma below_mono s s' d : s <= s' -> below s d -> below s' d.
Proof.
  intros Hs H. unfold below in *.
  eapply Forall_impl; [|exact H]. intros row Hrow.
  eapply Forall_impl; [|exact Hrow]. cbn. intros p Hp. lia.
Qed.

Lemma absdiff_eight_bit a : forall b,
  eight_bit a -> eight_bit b -> below 255 (absdiff a b).
Proof.
  unfold eight_bit, below, absdiff.
  induction a as [|ra a IH]; intros b Ha Hb; cbn [map2].
  - constructor.
  - destruct b as [|rb b]; [constructor|].
    inversion Ha as [|? ? Hra Ha']; subst.
    inversion Hb as [|? ? Hrb Hb']; subst.
    constructor; [|apply IH; assumption].
    clear - Hra Hrb. revert rb Hrb.
    induction Hra as [|p ra Hp _ IHr]; intros rb Hrb; cbn [map2].
    + constructor.
    + destruct rb as [|q rb]; [constructor|].
      inversion Hrb as [|? ? Hq Hrb']; subst.
      constructor; [lia | apply IHr; assumption].
Qed.

Section StillFrames.

Variable smooth : bgr_image -> image.

(** X7: with a sensitivity that is not negative, a frame whose smoothed
    image equals the reference frame shows no motion; read while idle it
    produces no event at all and the loop stays idle. *)
Theorem X7_same_as_reference_is_no_motion :
  forall m l i,
    ret i = true ->
    0 <= sensitivity m ->
    smooth (cam_frame i) = gray_first_frame l ->
    fst (inspected smooth m l i) = false /\
    (is_recording l = false ->
     exists l' shown,
       cycle smooth m l i = ([], Next l' shown) /\ is_recording l' = false).
Proof.
  intros m l i Hret Hs Heq.
  assert (Hstill : fst (inspected smooth m l i) = false).
  { apply inspected_still. rewrite Heq.
    apply blank_below; [exact Hs | apply absdiff_self]. }
  split; [exact Hstill|]. intro Hrec.
  rewrite cycle_idle_still by assumption.
  do 2 eexists. split; [reflexivity|].
  destruct (refresh_keeps_session i (smooth (cam_frame i)) l) as (R1 & _).
  congruence.
Qed.

End StillFrames.

Lemma X7_witness :
  0 <= sensitivity sample_monitor /\
  green (cam_frame (sample_tick (dark 7 7) 3)) = gray_first_frame sample_idle /\
  fst (inspected green sample_monitor sample_idle (sample_tick (dark 7 7) 3))
  = false.
Proof.
  assert (H0 : 0 <= sensitivity sample_monitor) by (cbn; lia).
  split; [exact H0|]. split; [reflexivity|].
  exact (proj1 (X7_same_as_reference_is_no_motion green sample_monitor
                  sample_idle (sample_tick (dark 7 7) 3)
                  eq_refl H0 eq_refl)).
Defined.

(** X8: with a sensitivity of 255 or more no pair of 8-bit images shows
    motion: the mask has no contour and there is no motion region,
    whatever [min_area] is. *)
Theorem X8_sensitivity_255_never_detects :
  forall s min_area reference gray,
    255 <= s ->
    eight_bit reference -> eight_bit gray ->
    findContours (motion_mask s reference gray) = [] /\
    motion_regions s min_area reference gray = [].
Proof.
  intros s min_area reference gray Hs Hr Hg.
  assert (Hc : findContours (motion_mask s reference gray) = []).
  { apply findContours_blank, motion_mask_blank.
    apply (below_mono 255); [exact Hs|]. apply absdiff_eight_bit; assumption. }
  split; [exact Hc|]. unfold motion_regions. rewrite Hc. reflexivity.
Qed.

Lemma X8_witness :
  eight_bit (dark 7 7) /\ eight_bit dot /\
  motion_regions 255 0 (dark 7 7) dot = [].
Proof.
  assert (Hd : eight_bit (dark 7 7))
    by (vm_compute; repeat constructor; discriminate).
  assert (Hp : eight_bit dot)
    by (vm_compute; repeat constructor; discriminate).
  split; [exact Hd|]. split; [exact Hp|].
  exact (proj2 (X8_sensitivity_255_never_detects 255 0%Q (dark 7 7) dot
                  (Z.le_refl 255) Hd Hp)).
Defined.

Lemma contourArea_nonneg c : (0 <= contourArea c)%Q.
Proof.
  unfold contourArea. destruct c as [|p c].
  - apply Qle_refl.
  - unfold Qle. cbn. lia.
Qed.

(** X9: with [min_area] zero or negative no contour is skipped: motion
    is detected as soon as the mask has a contour at all, and every
    contour gets its box. *)
Theorem X9_nonpositive_min_area_keeps_all :
  forall min_area cs f,
    (min_area <= 0)%Q ->
    filter (survives min_area) cs = cs /\
    fst (check_contours min_area cs f)
    = match cs with [] => false | _ :: _ => true end /\
    boxes (snd (check_contours min_area cs f))
    = boxes f ++ map box_of (map boundingRect cs).
Proof.
  intros min_area cs f Hm.
  assert (Hall : forall c, survives min_area c = true).
  { intro c. apply survives_iff.
    apply Qle_trans with 0%Q; [exact Hm | apply contourArea_nonneg]. }
  assert (Hf : filter (survives min_area) cs = cs).
  { induction cs as [|c cs IH]; [reflexivity|].
    cbn [filter]. rewrite Hall, IH. reflexivity. }
  split; [exact Hf|]. rewrite check_contours_spec. cbn [fst snd boxes].
  rewrite Hf. split; [|reflexivity].
  destruct cs as [|c cs]; [reflexivity|]. cbn [existsb]. rewrite Hall.
  reflexivity.
Qed.

Lemma X9_witness :
  (0 <= 0)%Q /\
  fst (check_contours 0 [square] sample_shot) = true.
Proof.
  assert (H0 : (0 <= 0)%Q) by apply Qle_refl.
  split; [exact H0|].
  exact (proj1 (proj2 (X9_nonpositive_min_area_keeps_all 0%Q [square]
                         sample_shot H0))).
Defined.

Section RunFacts.

Variable smooth : bgr_image -> image.

Lemma cycle_saved_needs_frame m l i :
  ret i = false -> saved (fst (cycle smooth m l i)) = [].
Proof.
  intro Hret. unfold cycle. rewrite Hret. reflexivity.
Qed.

(** X10: every frame the loop records or saves as a screenshot is a
    frame that [camera.read()] delivered, with success, in one of the
    iterations of the run. *)
Theorem X10_only_camera_frames_are_saved :
  forall m ticks l p f,
    In (p, f) (saved (fst (iterate smooth m l ticks))) ->
    exists i, In i ticks /\ ret i = true /\ raw f = cam_frame i.
Proof.
  intros m ticks. induction ticks as [|i rest IH]; intros l p f Hin.
  - cbn in Hin. contradiction.
  - rewrite iterate_cons in Hin.
    assert (Hhere : In (p, f) (saved (fst (cycle smooth m l i))) ->
                    exists j, In j (i :: rest) /\ ret j = true /\
                              raw f = cam_frame j).
    { intro Hc. exists i. split; [left; reflexivity|].
      destruct (ret i) eqn:Hret.
      - split; [reflexivity|].
        rewrite (cycle_frames smooth m l i p f Hc). apply inspected_frame.
      - rewrite cycle_saved_needs_frame in Hc by assumption. contradiction. }
    destruct (cycle smooth m l i) as [ev [l' g|l'|l']]; cbn [fst] in *;
      try (apply Hhere; exact Hin).
    apply saved_app in Hin. destruct Hin as [Hin|Hin].
    + apply Hhere. exact Hin.
    + destruct (IH l' p f Hin) as (j & Hj & Hr & Hraw).
      exists j. split; [right; exact Hj | split; assumption].
Qed.

Lemma cycle_reference m l i :
  let g := gray_first_frame (locals_of (snd (cycle smooth m l i))) in
  (g = gray_first_frame l \/
   (g = smooth (cam_frame i) /\ ret i = true /\
    Qltb (fmod (now_refresh i) 30) 1 = true)).
Proof.
  destruct (ret i) eqn:Hret.
  2:{ unfold cycle. rewrite Hret. cbn. left. reflexivity. }
  rewrite cycle_unfold by assumption.
  unfold begin_recording, record_frame, refresh_reference.
  destruct (Qltb (fmod (now_refresh i) 30) 1) eqn:Ew;
    destruct (fst (inspected smooth m l i) && negb (is_recording l));
    cbn [is_recording video_writer record_start_time];
    repeat match goal with
      | |- context [if ?b then _ else _] => destruct b
      | |- context [match ?o with Some _ => _ | None => _ end] => destruct o
      end;
    cbn; auto.
Qed.

(** X11: at the end of a run the reference frame is either the one the
    run started with or the smoothed frame of one of its iterations, read
    with success at a moment when the clock modulo 30 was below 1; if no
    iteration fell into such a moment the reference frame is the one the
    run started with. *)
Theorem X11_reference_comes_from_a_refresh :
  forall m ticks l,
    let g := gray_first_frame (locals_of (snd (iterate smooth m l ticks))) in
    (g = gray_first_frame l \/
     exists i, In i ticks /\ ret i = true /\
               Qltb (fmod (now_refresh i) 30) 1 = true /\
               g = smooth (cam_frame i)) /\
    (Forall (fun i => Qltb (fmod (now_refresh i) 30) 1 = false) ticks ->
     g = gray_first_frame l).
Proof.
  intros m ticks. induction ticks as [|i rest IH]; intro l.
  - cbn. auto.
  - cbn zeta. rewrite iterate_cons.
    pose proof (cycle_reference m l i) as Hc. cbn zeta in Hc.
    destruct (cycle smooth m l i) as [ev [l' g|l'|l']];
      cbn [fst snd locals_of] in *.
    + destruct (IH l') as [Hor Hall]. split.
      * destruct Hor as [Hsame|(j & Hj & Hr & Hw & Hg)].
        -- rewrite Hsame. destruct Hc as [Hc|(Hc & Hr & Hw)].
           ++ left. exact Hc.
           ++ right. exists i. repeat split; auto. left. reflexivity.
        -- right. exists j. repeat split; auto. right. exact Hj.
      * intro HF. inversion HF as [|? ? Hi Hrest]; subst.
        rewrite (Hall Hrest).
        destruct Hc as [Hc|(_ & _ & Hw)]; [exact Hc | congruence].
    + split.
      * destruct Hc as [Hc|(Hc & Hr & Hw)]; [left; exact Hc|].
        right. exists i. repeat split; auto. left. reflexivity.
      * intro HF. inversion HF as [|? ? Hi Hrest]; subst.
        destruct Hc as [Hc|(_ & _ & Hw)]; [exact Hc | congruence].
    + split.
      * destruct Hc as [Hc|(Hc & Hr & Hw)]; [left; exact Hc|].
        right. exists i. repeat split; auto. left. reflexivity.
      * intro HF. inversion HF as [|? ? Hi Hrest]; subst.
        destruct Hc as [Hc|(_ & _ & Hw)]; [exact Hc | congruence].
Qed.

End RunFacts.

Lemma X10_witness :
  In ("security_recordings/motion_20240101_120000.jpg"%string, sample_shot)
     (saved (fst (iterate green sample_monitor sample_idle
                          [sample_tick dot 3]))) /\
  exists i, In i [sample_tick dot 3] /\ ret i = true /\
            raw sample_shot = cam_frame i.
Proof.
  assert (Hin : In ("security_recordings/motion_20240101_120000.jpg"%string,
                    sample_shot)
                   (saved (fst (iterate green sample_monitor sample_idle
                                        [sample_tick dot 3]))))
    by (vm_compute; left; reflexivity).
  split; [exact Hin|].
  exact (X10_only_camera_frames_are_saved green sample_monitor
           [sample_tick dot 3] sample_idle _ _ Hin).
Defined.

Lemma X11_witness :
  Forall (fun i => Qltb (fmod (now_refresh i) 30) 1 = false)
         [sample_tick dot 3; sample_tick dim 11] /\
  gray_first_frame
    (locals_of (snd (iterate green sample_monitor sample_idle
                             [sample_tick dot 3; sample_tick dim 11])))
  = gray_first_frame sample_idle.
Proof.
  assert (HF : Forall (fun i => Qltb (fmod (now_refresh i) 30) 1 = false)
                      [sample_tick dot 3; sample_tick dim 11])
    by (repeat constructor).
  split; [exact HF|].
  exact (proj2 (X11_reference_comes_from_a_refresh green sample_monitor
                  [sample_tick dot 3; sample_tick dim 11] sample_idle) HF).
Defined.

(** *** The refresh window *)

(** X12: the refresh test [time.time() % 30 < 1] holds exactly when the
    clock lies in the first second of a 30-second window, that is in
    [30k, 30k + 1) for some integer [k]. *)
Theorem X12_refresh_window :
  forall t : Q,
    Qltb (fmod t 30) 1 = true <->
    exists k : Z, (inject_Z (30 * k) <= t)%Q /\ (t < inject_Z (30 * k + 1))%Q.
Proof.
  intro t.
  assert (H30 : (0 < 30)%Q) by reflexivity.
  destruct (fmod_spec t 30 H30) as (Hlo & Hhi & Heq).
  set (q := Qfloor (t / 30)) in *.
  rewrite Qltb_lt. split.
  - intro Hlt. exists q.
    rewrite inject_Z_plus, inject_Z_mult.
    change (inject_Z 30) with 30%Q. change (inject_Z 1) with 1%Q.
    split; lra.
  - intros (k & Hk1 & Hk2).
    rewrite inject_Z_plus, inject_Z_mult in Hk2.
    rewrite inject_Z_mult in Hk1.
    change (inject_Z 30) with 30%Q in *. change (inject_Z 1) with 1%Q in *.
    assert (Hqk : (q <= k)%Z).
    { assert (H : (inject_Z q < inject_Z (k + 1))%Q).
      { rewrite inject_Z_plus. change (inject_Z 1) with 1%Q. lra. }
      rewrite <- Zlt_Qlt in H. lia. }
    assert (Hkq : (k <= q)%Z).
    { assert (H : (inject_Z k < inject_Z (q + 1))%Q).
      { rewrite inject_Z_plus. change (inject_Z 1) with 1%Q. lra. }
      rewrite <- Zlt_Qlt in H. lia. }
    assert (E : q = k) by lia. rewrite E in Heq. lra.
Qed.

(** *** Boxes, paths, dispatch, module-level calls *)

Lemma fold_min_le l : forall a,
  fold_left Z.min l a <= a /\
  forall x, In x l -> fold_left Z.min l a <= x.
Proof.
  induction l as [|y l IH]; intro a; cbn [fold_left].
  - split; [lia | intros x []].
  - destruct (IH (Z.min a y)) as [H1 H2]. split; [lia|].
    intros x [E|Hin]; [subst; lia | apply H2, Hin].
Qed.

Lemma fold_max_ge l : forall a,
  a <= fold_left Z.max l a /\
  forall x, In x l -> x <= fold_left Z.max l a.
Proof.
  induction l as [|y l IH]; intro a; cbn [fold_left].
  - split; [lia | intros x []].
  - destruct (IH (Z.max a y)) as [H1 H2]. split; [lia|].
    intros x [E|Hin]; [subst; lia | apply H2, Hin].
Qed.

(** X13: the rectangle computed for a contour, whose corners are handed
    to [cv2.rectangle], contains every vertex of that contour. *)
Theorem X13_bounding_rectangle_encloses_contour :
  forall c p,
    In p c ->
    inside (boundingRect c) p /\
    fst (box_of (boundingRect c)) = (rx (boundingRect c), ry (boundingRect c)) /\
    fst (fst (box_of (boundingRect c))) <= fst p
      < fst (snd (box_of (boundingRect c))) /\
    snd (fst (box_of (boundingRect c))) <= snd p
      < snd (snd (box_of (boundingRect c))).
Proof.
  intros c p Hin. destruct c as [|p0 c]; [contradiction|].
  unfold inside, box_of, boundingRect.
  cbn [rx ry rw rh fst snd].
  destruct (fold_min_le (map fst c) (fst p0)) as [Hx1 Hx2].
  destruct (fold_max_ge (map fst c) (fst p0)) as [Hx3 Hx4].
  destruct (fold_min_le (map snd c) (snd p0)) as [Hy1 Hy2].
  destruct (fold_max_ge (map snd c) (snd p0)) as [Hy3 Hy4].
  destruct Hin as [E|Hin].
  - subst p0. repeat split; lia.
  - pose proof (Hx2 _ (in_map fst c p Hin)).
    pose proof (Hx4 _ (in_map fst c p Hin)).
    pose proof (Hy2 _ (in_map snd c p Hin)).
    pose proof (Hy4 _ (in_map snd c p Hin)).
    repeat split; lia.
Qed.

Lemma X13_witness :
  In (5, 1) square /\ inside (boundingRect square) (5, 1).
Proof.
  assert (Hin : In (5, 1) square) by (cbn; auto).
  split; [exact Hin|].
  exact (proj1 (X13_bounding_rectangle_encloses_contour square (5, 1) Hin)).
Defined.

(** X15: [_send_notification] sends by e-mail only when the method is
    "email" and both mail settings are set and not empty, by chat only
    when the method is "telegram" and both chat settings are set and
    not empty; it never falls back from one channel to the other, and
    any other method only logs a warning. *)
Theorem X15_notification_channel_has_no_fallback :
  forall notify_method c,
    (send_notification notify_method c = By_email <->
     notify_method = "email"%string /\
     truthy (gmail_user c) = true /\ truthy (gmail_password c) = true) /\
    (send_notification notify_method c = By_telegram <->
     notify_method = "telegram"%string /\
     truthy (telegram_bot_token c) = true /\
     truthy (telegram_chat_id c) = true) /\
    (notify_method <> "email"%string ->
     notify_method <> "telegram"%string ->
     send_notification notify_method c = Warn_only).
Proof.
  intros nm c. unfold send_notification.
  destruct (String.eqb_spec nm "email") as [Ee|Ne];
    destruct (String.eqb_spec nm "telegram") as [Et|Nt];
    try (subst nm; discriminate);
    destruct (truthy (gmail_user c)), (truthy (gmail_password c)),
             (truthy (telegram_bot_token c)), (truthy (telegram_chat_id c));
    cbn; repeat split; try tauto; try discriminate;
    try (intros (H1 & H2 & H3); congruence).
Qed.

Lemma X15_witness :
  "sms"%string <> "email"%string /\
  "sms"%string <> "telegram"%string /\
  send_notification "sms"
    (Credentials (Some "me@example.org"%string) (Some "secret"%string)
                 (Some "token"%string) (Some "42"%string))
  = Warn_only.
Proof.
  assert (H1 : "sms"%string <> "email"%string) by discriminate.
  assert (H2 : "sms"%string <> "telegram"%string) by discriminate.
  split; [exact H1|]. split; [exact H2|].
  exact (proj2 (proj2 (X15_notification_channel_has_no_fallback "sms"
                         (Credentials (Some "me@example.org"%string)
                                      (Some "secret"%string)
                                      (Some "token"%string)
                                      (Some "42"%string)))) H1 H2).
Defined.

Lemma append_inj_l (a b c : string) :
  (a ++ b)%string = (a ++ c)%string -> b = c.
Proof.
  induction a as [|ch a IH]; cbn; intro H.
  - exact H.
  - injection H as H. apply IH, H.
Qed.

Lemma path_join_inj dir n1 n2 : path_join dir n1 = path_join dir n2 -> n1 = n2.
Proof.
  unfold path_join. destruct (String.eqb dir EmptyString).
  - intro H. exact H.
  - destruct (ends_with_slash dir); intro H.
    + apply (append_inj_l dir), H.
    + apply (append_inj_l "/"), (append_inj_l dir), H.
Qed.

(** X16: in every iteration and for every [save_dir] the path of the
    video file differs from the path of the screenshot, so saving the
    screenshot never overwrites the recording; two iterations whose
    time stamp is the same second get the same two paths. *)
Theorem X16_video_and_screenshot_paths :
  forall m i,
    video_path_of m i <> screenshot_path_of m i /\
    forall j, now_name j = now_name i ->
              video_path_of m j = video_path_of m i /\
              screenshot_path_of m j = screenshot_path_of m i.
Proof.
  intros m i. split.
  - unfold video_path_of, screenshot_path_of. intro H.
    apply path_join_inj in H.
    apply (append_inj_l "motion_") in H.
    apply (append_inj_l (now_name i)) in H. discriminate.
  - intros j Hj. unfold video_path_of, screenshot_path_of.
    rewrite Hj. split; reflexivity.
Qed.

Lemma X16_witness :
  now_name (sample_tick dim 11) = now_name (sample_tick dot 3) /\
  video_path_of sample_monitor (sample_tick dim 11)
  = video_path_of sample_monitor (sample_tick dot 3).
Proof.
  split; [reflexivity|].
  exact (proj1 (proj2 (X16_video_and_screenshot_paths sample_monitor
                         (sample_tick dot 3))
                      (sample_tick dim 11) eq_refl)).
Defined.

(** *** The thread and [stop()] *)

Section ThreadEnd.

Variable smooth : bgr_image -> image.

Lemma finally_facts m cleared ev :
  is_running (fst (finally m cleared ev)) = false /\
  camera (fst (finally m cleared ev))
  = (if cleared then None else camera m) /\
  snd (finally m cleared ev)
  = ev ++ (if cleared then [] else [Camera_release]).
Proof.
  unfold finally. destruct cleared; cbn; rewrite ?app_nil_r; auto.
Qed.

(** The trace handed to [finally] and the state of [self.camera] there,
    for every way the thread can end. *)
Lemma monitor_loop_shape m opened first ticks e :
  exists cleared ev,
    monitor_loop smooth m opened first ticks e
    = finally (set_camera (Some (camera_id m)) m) cleared ev /\
    camera_releases ev = O.
Proof.
  unfold monitor_loop.
  destruct opened; cbn [negb]; [|do 2 eexists; split; reflexivity].
  destruct first as [f|]; [|do 2 eexists; split; reflexivity].
  pose proof (iterate_no_camera_release smooth
                (set_camera (Some (camera_id m)) m) ticks (initial smooth f))
    as Hn.
  destruct (iterate smooth _ (initial smooth f) ticks) as [ev fl].
  cbn [fst] in Hn.
  assert (Hw : forall l, camera_releases (release_writer l) = O).
  { intro l. unfold release_writer. destruct (video_writer l); reflexivity. }
  destruct e; [do 2 eexists; split; reflexivity| | |];
    destruct fl as [l g|l|l]; try destruct (forallb ret ticks);
    do 2 eexists; (split; [reflexivity|]);
    rewrite ?camera_releases_app, ?Hn, ?Hw; reflexivity.
Qed.

(** X4: however the thread ends, [is_running] is false afterwards, and
    the thread releases the camera itself exactly when [self.camera]
    still holds the capture object at the end, once and as its last
    action; when [stop()] has cleared [self.camera] the thread releases
    nothing. *)
Theorem X4_thread_releases_camera_unless_stopped :
  forall m opened first ticks e,
    let r := monitor_loop smooth m opened first ticks e in
    is_running (fst r) = false /\
    (camera (fst r) = None \/ camera (fst r) = Some (camera_id m)) /\
    camera_releases (snd r)
    = match camera (fst r) with Some _ => 1%nat | None => O end /\
    (camera (fst r) <> None -> exists ev, snd r = ev ++ [Camera_release]).
Proof.
  intros m opened first ticks e.
  destruct (monitor_loop_shape m opened first ticks e)
    as (cleared & ev & Heq & Hn).
  cbn zeta. rewrite Heq.
  destruct (finally_facts (set_camera (Some (camera_id m)) m) cleared ev)
    as (H1 & H2 & H3).
  rewrite H1, H2, H3, camera_releases_app, Hn.
  destruct cleared; cbn; repeat split; auto; try congruence.
  intros _. exists ev. reflexivity.
Qed.

End ThreadEnd.

Lemma X4_witness :
  camera (fst (monitor_loop green sample_stopped true (Some (gray_bgr (dark 7 7)))
                            [sample_tick dot 3] (Read_fails false))) <> None /\
  exists ev,
    snd (monitor_loop green sample_stopped true (Some (gray_bgr (dark 7 7)))
                      [sample_tick dot 3] (Read_fails false))
    = ev ++ [Camera_release].
Proof.
  assert (Hc : camera (fst (monitor_loop green sample_stopped true
                              (Some (gray_bgr (dark 7 7)))
                              [sample_tick dot 3] (Read_fails false)))
               <> None) by (vm_compute; discriminate).
  split; [exact Hc|].
  exact (proj2 (proj2 (proj2 (X4_thread_releases_camera_unless_stopped green
                                sample_stopped true
                                (Some (gray_bgr (dark 7 7)))
                                [sample_tick dot 3] (Read_fails false))))
               Hc).
Defined.

Section ThreadRuns.

Variable smooth : bgr_image -> image.

Lemma sessions_release_writer l :
  sessions (video_writer l) (release_writer l) = Some None.
Proof.
  unfold release_writer. destruct (video_writer l) as [w|]; cbn;
    rewrite ?String.eqb_refl; reflexivity.
Qed.

Lemma sessions_finally m cleared ev a b :
  sessions a ev = Some b ->
  sessions a (snd (finally m cleared ev)) = Some b.
Proof.
  intro H. unfold finally. destruct cleared; cbn [snd]; [exact H|].
  rewrite (sessions_app _ _ _ _ H). reflexivity.
Qed.

(** X5: when the camera opens and a first frame is read, the thread
    leaves a video writer open only when it ends through an exception
    while recording (for instance [self.camera.read()] after [stop()]
    has set [self.camera] to [None]): the [except] path skips the release
    of lines 195-196.  When the loop is left by [break] or at its head,
    every writer that was opened has been released. *)
Theorem X5_writer_left_open_only_by_exception :
  forall m first ticks e,
    let l := locals_of (snd (iterate smooth (set_camera (Some (camera_id m)) m)
                                     (initial smooth first) ticks)) in
    sessions None (snd (monitor_loop smooth m true (Some first) ticks e))
    = Some (match e with
            | Read_raises _ => if forallb ret ticks then video_writer l
                               else None
            | _ => None
            end).
Proof.
  intros m first ticks e. cbn zeta. unfold monitor_loop. cbn [negb].
  destruct (iterate_sessions smooth (set_camera (Some (camera_id m)) m)
              ticks (initial smooth first)) as (ev & l' & Hit & _ & Hs).
  { reflexivity. }
  rewrite Hit. cbn [initial video_writer snd locals_of] in *.
  assert (Hrel : sessions None (ev ++ release_writer l') = Some None).
  { rewrite (sessions_app _ _ _ _ Hs). apply sessions_release_writer. }
  destruct e as [| |stopped|stopped].
  - reflexivity.
  - destruct (forallb ret ticks); apply sessions_finally; exact Hrel.
  - destruct (forallb ret ticks); apply sessions_finally; [|exact Hrel].
    rewrite (sessions_app _ _ _ _ Hs). cbn [app sessions].
    apply sessions_release_writer.
  - destruct (forallb ret ticks); apply sessions_finally; [|exact Hrel].
    rewrite (sessions_app _ _ _ _ Hs). reflexivity.
Qed.

(** X1: for a monitor that is not running, [start()] answers "started";
    whatever way the thread it created then ends (camera not opened,
    failed read, [stop()], exception), [is_running] is false afterwards
    and a new [start()] answers "started" again. *)
Theorem X1_start_again_after_thread_ended :
  forall m opened first ticks e,
    is_running m = false ->
    let r := start_session smooth m opened first ticks e in
    fst r = msg_started /\
    is_running (fst (snd r)) = false /\
    fst (start (fst (snd r))) = msg_started.
Proof.
  intros m opened first ticks e Hrun. cbn zeta.
  set (m1 := set_monitor_thread (Some Monitor_loop) (set_is_running true m)).
  assert (Hs : start m = (msg_started, m1))
    by (unfold start; rewrite Hrun; reflexivity).
  unfold start_session. rewrite Hs, Hrun. cbn [fst snd].
  destruct (monitor_loop_shape smooth m1 opened first ticks e)
    as (cleared & ev & Heq & _).
  rewrite Heq.
  destruct (finally_facts (set_camera (Some (camera_id m1)) m1) cleared ev)
    as (H1 & _ & _).
  split; [reflexivity|]. split; [exact H1|].
  unfold start. rewrite H1. reflexivity.
Qed.

End ThreadRuns.

Lemma X1_witness :
  is_running sample_stopped = false /\
  fst (start (fst (snd (start_session green sample_stopped true
                          (Some (gray_bgr (dark 7 7))) [sample_tick dot 3]
                          (Read_raises true)))))
  = msg_started.
Proof.
  split; [reflexivity|].
  exact (proj2 (proj2 (X1_start_again_after_thread_ended green sample_stopped
                         true (Some (gray_bgr (dark 7 7))) [sample_tick dot 3]
                         (Read_raises true) eq_refl))).
Defined.



(** *** A mask with a set pixel has a contour *)





Section FreshScan.

Variable m : image.




End FreshScan.



(** *** The shape of the mask *)











(** A thread that starts a recording and then meets [self.camera.read()]
    on [None] leaves its writer open. *)
Example writer_left_open_after_stop :
  sessions None
    (snd (monitor_loop green sample_stopped true (Some (gray_bgr (dark 7 7)))
                       [sample_tick dot 3] (Read_raises true)))
  = Some (Some "security_recordings/motion_20240101_120000.avi"%string).
Proof. reflexivity. Qed.
